(** * StreamDiffusionWrapper: a shallow embedding of [examples/wrapper.py]

    The wrapper is glue code: it sequences calls into diffusers, torch,
    PIL, polygraphy and the streamdiffusion package.  Those calls are
    opaque here.  Each one is recorded as an event, may raise (the
    environment decides, looking at the whole history so far), and
    returns a symbolic value naming how it was obtained.  What the
    wrapper itself computes (engine paths, the batch size, which branch
    runs, what is assigned to [stream.unet] and [stream.vae], what is
    returned) is modelled as written.

    Taken not to raise: attribute reads and writes, [os.path.join],
    [os.path.dirname], [os.path.exists], string formatting, [print],
    [traceback.print_exc], [torch.manual_seed] and [torch.device].
    Paths follow [posixpath].  Arguments are of the annotated types. *)

From Stdlib Require Import String Ascii List ZArith QArith Bool Lia.
From Stdlib Require Import DecimalString DecimalPos DecimalZ Sorted.
Import ListNotations.
Open Scope string_scope.
Open Scope Z_scope.
Open Scope list_scope.

(** ** Python strings and [os.path] (POSIX flavour) *)

Module Py.

(** [s.startswith(p)]. *)
Definition startswith (s p : string) : bool := String.prefix p s.

(** [sub in s]: some suffix of [s] starts with [sub]. *)
Fixpoint contains (sub s : string) : bool :=
  String.prefix sub s ||
  match s with
  | EmptyString => false
  | String _ s' => contains sub s'
  end.

(** [s.endswith(suf)]: the last [len(suf)] characters of [s] are [suf]. *)
Definition endswith (s suf : string) : bool :=
  (String.length suf <=? String.length s)%nat &&
  String.eqb (String.substring (String.length s - String.length suf)
                               (String.length suf) s) suf.

(** [str(b)] for a bool, as an f-string field prints it. *)
Definition str_bool (b : bool) : string := if b then "True" else "False".

(** [str(n)] for an int. *)
Definition str_int (n : Z) : string := NilZero.string_of_int (Z.to_int n).

Definition sep : ascii := "/"%char.

(** One round of the loop of [posixpath.join]. *)
Definition join2 (path b : string) : string :=
  if startswith b "/" then b
  else if (String.eqb path "" || endswith path "/")%bool then (path ++ b)%string
  else (path ++ "/" ++ b)%string.

(** [os.path.join(a, *p)]. *)
Definition join (a : string) (p : list string) : string :=
  fold_left join2 p a.

(** [p[:p.rfind('/') + 1]]. *)
Fixpoint head_upto_last_sep (p : string) : string :=
  match p with
  | EmptyString => EmptyString
  | String c r =>
      if contains "/" r then String c (head_upto_last_sep r)
      else if Ascii.eqb c sep then "/" else EmptyString
  end.

(** [s == '/' * len(s)]. *)
Fixpoint all_sep (s : string) : bool :=
  match s with
  | EmptyString => true
  | String c r => Ascii.eqb c sep && all_sep r
  end.

(** [s.rstrip('/')]. *)
Fixpoint rstrip_sep (s : string) : string :=
  match s with
  | EmptyString => EmptyString
  | String c r =>
      match rstrip_sep r with
      | EmptyString => if Ascii.eqb c sep then EmptyString else String c EmptyString
      | r' => String c r'
      end
  end.

(** [os.path.dirname(p)]. *)
Definition dirname (p : string) : string :=
  let head := head_upto_last_sep p in
  if negb (String.eqb head "") && negb (all_sep head)
  then rstrip_sep head else head.

End Py.

(** ** Exceptions

    A Python exception object, as far as [except Exception] can tell
    exceptions apart: its class name, and whether that class derives
    from [Exception] ([KeyboardInterrupt], [SystemExit] and
    [GeneratorExit] derive from [BaseException] only). *)

Record exn := { exn_class : string; exn_is_Exception : bool }.

Definition IndexError : exn :=
  {| exn_class := "IndexError"; exn_is_Exception := true |}.

Definition result (A : Type) : Type := (exn + A)%type.

(** ** Objects of the wrapped libraries, named by how they were obtained *)

(** [StableDiffusionPipeline.from_*(model_id).to(device=..., dtype=...)]. *)
Inductive pipe_obj :=
| PipeSingleFile (model_id device dtype : string)
| PipePretrained (model_id device dtype : string).

(** What [stream.unet] refers to. *)
Inductive unet_ref :=
| TorchUNet (pipe : pipe_obj)
    (* the torch module the [StreamDiffusion] constructor installed *)
| UNetEngine (engine_path : string)
    (* [UNet2DConditionModelEngine(unet_path, cuda_stream, use_cuda_graph=False)] *)
| DataParallel (module : unet_ref) (device_ids : list Z).
    (* [torch.nn.DataParallel(stream.unet, device_ids=device_ids)] *)

(** What [stream.vae] refers to. *)
Inductive vae_ref :=
| TorchVAE (pipe : pipe_obj)
    (* the torch module the [StreamDiffusion] constructor installed *)
| TinyVAE (vae_id : string) (pipe : pipe_obj)
    (* [AutoencoderTiny.from_pretrained(vae_id).to(device=pipe.device, dtype=pipe.dtype)] *)
| KLEngine (encoder_path decoder_path : string) (pipe : pipe_obj).
    (* [AutoencoderKLEngine(enc, dec, cuda_stream, stream.pipe.vae_scale_factor, ...)] *)

(** The VAE object with the attributes the wrapper sets on it:
    [forward] (installed for the decoder export, then deleted), and
    [config] / [dtype], each named by the module it was read from. *)
Record vae_obj := {
  vae_module : vae_ref;
  vae_forward : bool;
  vae_config : vae_ref;
  vae_dtype : vae_ref
}.

Definition fresh_vae (m : vae_ref) : vae_obj :=
  {| vae_module := m; vae_forward := false; vae_config := m; vae_dtype := m |}.

(** The [StreamDiffusion] object: its constructor arguments and the two
    attributes the wrapper reassigns. *)
Record stream_obj := {
  s_pipe : pipe_obj;
  s_t_index_list : list Z;
  s_torch_dtype : string;
  s_width : Z;
  s_height : Z;
  s_is_drawing : bool;
  s_frame_buffer_size : Z;
  s_unet : unet_ref;
  s_vae : vae_obj
}.

Definition set_unet (u : unet_ref) (s : stream_obj) : stream_obj :=
  {| s_pipe := s_pipe s; s_t_index_list := s_t_index_list s;
     s_torch_dtype := s_torch_dtype s; s_width := s_width s;
     s_height := s_height s; s_is_drawing := s_is_drawing s;
     s_frame_buffer_size := s_frame_buffer_size s;
     s_unet := u; s_vae := s_vae s |}.

Definition set_vae (v : vae_obj) (s : stream_obj) : stream_obj :=
  {| s_pipe := s_pipe s; s_t_index_list := s_t_index_list s;
     s_torch_dtype := s_torch_dtype s; s_width := s_width s;
     s_height := s_height s; s_is_drawing := s_is_drawing s;
     s_frame_buffer_size := s_frame_buffer_size s;
     s_unet := s_unet s; s_vae := v |}.

Definition set_vae_forward (b : bool) (v : vae_obj) : vae_obj :=
  {| vae_module := vae_module v; vae_forward := b;
     vae_config := vae_config v; vae_dtype := vae_dtype v |}.

Definition set_vae_config (c : vae_ref) (v : vae_obj) : vae_obj :=
  {| vae_module := vae_module v; vae_forward := vae_forward v;
     vae_config := c; vae_dtype := vae_dtype v |}.

Definition set_vae_dtype (d : vae_ref) (v : vae_obj) : vae_obj :=
  {| vae_module := vae_module v; vae_forward := vae_forward v;
     vae_config := vae_config v; vae_dtype := d |}.

(** Images, tensors, and what a caller may hand to [__call__]. *)
Inductive pil_image :=
| UserImage (id : nat)
| Opened (path : string)                         (* [Image.open(path)] *)
| Converted (mode : string) (im : pil_image)     (* [im.convert(mode)] *)
| Resized (w h : Z) (im : pil_image)             (* [im.resize((w, h))] *)
| Postprocessed (t : tensor) (index : nat)
    (* entry [index] of [postprocess_image(t, output_type="pil")] *)
with tensor :=
| UserTensor (id : nat)
| Preprocessed (image : image_arg) (height width : Z)
    (* [stream.image_processor.preprocess(image, height, width)] *)
| MovedTo (device dtype : string) (t : tensor)   (* [t.to(device=..., dtype=...)] *)
| OnCpu (t : tensor)                             (* [t.cpu()] *)
| StreamOut (image : image_arg)                  (* first component of [stream(image)] *)
| Txt2ImgOut                                     (* [stream.txt2img()] *)
| Txt2ImgBatchOut (batch_size : Z)               (* [stream.txt2img_batch(n)] *)
with image_arg :=
| ArgNone
| ArgPath (path : string)
| ArgImage (im : pil_image)
| ArgTensor (t : tensor).

(** Second component of [stream(image)]. *)
Inductive skip_prob := SkipProb (image : image_arg).

(** [torch.manual_seed(seed)], passed as [generator]. *)
Inductive generator := ManualSeed (seed : Z).

(** ** Calls into the wrapped libraries

    Every constructor is one call that may raise. *)
Inductive call :=
| FromSingleFile (model_id : string)
| FromPretrained (model_id : string)
| PipeTo (device dtype : string)
| NewStreamDiffusion (pipe : pipe_obj) (t_index_list : list Z)
    (torch_dtype : string) (width height : Z) (is_drawing : bool)
    (frame_buffer_size : Z)
| LoadLcmLora (lcm_lora_id : option string)
| FuseLora
| TinyVaeFromPretrained (vae_id : string)
| TinyVaeTo (pipe : pipe_obj)
| EnableXformers
| Import (module : string)
| Makedirs (path : string)
| NewUNetModel (unet : unet_ref) (max_batch_size min_batch_size : Z)
| CompileUnet (unet : unet_ref) (onnx_path opt_onnx_path engine_path : string)
    (opt_batch_size : Z)
| NewVAEModel (max_batch_size min_batch_size : Z)
| CompileVaeDecoder (vae : vae_obj) (onnx_path opt_onnx_path engine_path : string)
    (opt_batch_size : Z)
| NewTorchVAEEncoder (vae : vae_obj)
| NewVAEEncoderModel (max_batch_size min_batch_size : Z)
| CompileVaeEncoder (vae : vae_obj) (onnx_path opt_onnx_path engine_path : string)
    (opt_batch_size : Z)
| NewCudaStream
| NewUNetEngine (engine_path : string)
| NewKLEngine (encoder_path decoder_path : string)
| GcCollect
| CudaEmptyCache
| AccelerateSfast (stream : stream_obj)
| StreamPrepare (prompt : string) (num_inference_steps : Z) (gen : option generator)
| NewDataParallel (module : unet_ref) (device_ids : list Z)
| EnableSimilarImageFilter (threshold : Q)
| StreamTxt2Img
| StreamTxt2ImgBatch (batch_size : Z)
| StreamCall (image : image_arg)
| ImageOpen (path : string)
| ImageConvert (mode : string) (im : pil_image)
| ImageResize (w h : Z) (im : pil_image)
| ProcessorPreprocess (image : image_arg) (height width : Z)
| TensorTo (device dtype : string) (t : tensor)
| TensorCpu (t : tensor)
| PostprocessImage (t : tensor) (output_type : string).

(** What an observer of a run sees, in order. *)
Inductive event :=
| EvCall (c : call)
| EvExists (path : string) (answer : bool)   (* [os.path.exists(path)] *)
| EvPrintExc (e : exn)                       (* [traceback.print_exc()] *)
| EvPrint (msg : string).                    (* [print(msg)] *)

(** ** The environment

    It answers, given everything that happened so far: whether a call
    raises, whether a path exists, how many images a tensor decodes to,
    which stream object [accelerate_with_stable_fast(stream)] hands
    back, and in what state that call leaves the stream object it was
    given when it raises instead. *)
Record env := {
  raises : list event -> call -> option exn;
  path_exists : list event -> string -> bool;
  num_images : list event -> tensor -> nat;
  sfast_result : list event -> stream_obj -> stream_obj;
  sfast_interrupted : list event -> stream_obj -> stream_obj
}.

(** ** The monad: history in; emitted events, variables and result out

    [V] is the mutable state in scope (the local [stream], or [self]).
    State changes made before an exception is raised stay made. *)
Definition M (V A : Type) : Type :=
  list event -> V -> list event * V * result A.

Definition events {V A} (o : list event * V * result A) : list event := fst (fst o).
Definition state {V A} (o : list event * V * result A) : V := snd (fst o).
Definition outcome {V A} (o : list event * V * result A) : result A := snd o.

Definition ret {V A} (a : A) : M V A := fun _ v => ([], v, inr a).

Definition bind {V A B} (m : M V A) (k : A -> M V B) : M V B :=
  fun h v =>
    match m h v with
    | (e1, v1, inl x) => (e1, v1, inl x)
    | (e1, v1, inr a) =>
        match k a (h ++ e1) v1 with
        | (e2, v2, r) => (e1 ++ e2, v2, r)
        end
    end.

Notation "x <- m ;; k" := (bind m (fun x => k))
  (at level 61, m at next level, right associativity).
Notation "m ;; k" := (bind m (fun _ => k))
  (at level 61, right associativity).

Definition raise {V A} (x : exn) : M V A := fun _ v => ([], v, inl x).
Definition get {V} : M V V := fun _ v => ([], v, inr v).
Definition put {V} (v : V) : M V unit := fun _ _ => ([], v, inr tt).
Definition modify {V} (f : V -> V) : M V unit := fun _ v => ([], f v, inr tt).
Definition emit {V} (e : event) : M V unit := fun _ v => ([e], v, inr tt).

(** [if b: m] with no [else]. *)
Definition when {V} (b : bool) (m : M V unit) : M V unit :=
  if b then m else ret tt.

(** [try: body / except Exception: handler]. *)
Definition try_except {V} (body : M V unit) (handler : exn -> M V unit) : M V unit :=
  fun h v =>
    match body h v with
    | (e1, v1, inr a) => (e1, v1, inr a)
    | (e1, v1, inl x) =>
        if exn_is_Exception x then
          match handler x (h ++ e1) v1 with
          | (e2, v2, r) => (e1 ++ e2, v2, r)
          end
        else (e1, v1, inl x)
    end.

(** Run [m] with a fresh variable initialised to [init]; the variable
    goes out of scope afterwards. *)
Definition with_local {W V A} (init : V) (m : M V A) : M W A :=
  fun h w =>
    match m h init with
    | (e, _, r) => (e, w, r)
    end.

(** ** The wrapper's own data *)

(** The attributes [__init__] sets before it loads the model. *)
Record attrs := {
  device : string;
  dtype : string;
  width : Z;
  height : Z;
  mode : string;
  frame_buffer_size : Z;
  batch_size : Z
}.

(** [self] once [self.stream] is assigned. *)
Record wrapper := {
  self_attrs : attrs;
  self_stream : stream_obj
}.

Definition set_stream (s : stream_obj) (w : wrapper) : wrapper :=
  {| self_attrs := self_attrs w; self_stream := s |}.

(** What the image-producing methods return. *)
Inductive images :=
| OneImage (im : pil_image)
| ImageList (ims : list pil_image).

(** What [__call__] returns: whatever [txt2img] or [img2img] returned. *)
Inductive retval :=
| RetImages (i : images)
| RetTuple (i : images) (p : skip_prob).

(** The arguments of [__init__]. *)
Record init_args := {
  a_model_id : string;
  a_t_index_list : list Z;
  a_mode : string;
  a_lcm_lora_id : option string;
  a_vae_id : option string;
  a_device : string;
  a_dtype : string;
  a_frame_buffer_size : Z;
  a_width : Z;
  a_height : Z;
  a_warmup : Z;
  a_acceleration : string;
  a_is_drawing : bool;
  a_device_ids : option (list Z);
  a_use_lcm_lora : bool;
  a_use_tiny_vae : bool;
  a_enable_similar_image_filter : bool;
  a_similar_image_filter_threshold : Q
}.

(** ** The wrapper *)

(** The nested function [create_prefix] of [_load_model]; it closes over
    [model_id], [use_tiny_vae], [use_lcm_lora] and [self.mode]. *)
Definition create_prefix (model_id : string) (use_tiny_vae use_lcm_lora : bool)
    (mode : string) (max_batch_size min_batch_size : Z) : string :=
  (model_id ++ "--lcm_lora-" ++ Py.str_bool use_tiny_vae
   ++ "--tiny_vae-" ++ Py.str_bool use_lcm_lora
   ++ "--max_batch-" ++ Py.str_int max_batch_size
   ++ "--min_batch-" ++ Py.str_int min_batch_size
   ++ "--mode-" ++ mode)%string.

(** [engine_dir = os.path.join("engines")]. *)
Definition engine_dir : string := Py.join "engines" [].

(** The expression [self.batch_size if self.mode == "txt2img" else 1],
    which the source writes out at every use. *)
Definition vae_batch_size (self : attrs) : Z :=
  if String.eqb (mode self) "txt2img" then batch_size self else 1.

Definition unet_path (self : attrs) (model_id : string)
    (use_lcm_lora use_tiny_vae : bool) : string :=
  Py.join engine_dir
    [create_prefix model_id use_tiny_vae use_lcm_lora (mode self)
       (batch_size self) (batch_size self);
     "unet.engine"].

Definition vae_encoder_path (self : attrs) (model_id : string)
    (use_lcm_lora use_tiny_vae : bool) : string :=
  Py.join engine_dir
    [create_prefix model_id use_tiny_vae use_lcm_lora (mode self)
       (vae_batch_size self) (vae_batch_size self);
     "vae_encoder.engine"].

Definition vae_decoder_path (self : attrs) (model_id : string)
    (use_lcm_lora use_tiny_vae : bool) : string :=
  Py.join engine_dir
    [create_prefix model_id use_tiny_vae use_lcm_lora (mode self)
       (vae_batch_size self) (vae_batch_size self);
     "vae_decoder.engine"].

Definition fallback_message : string :=
  "Acceleration has failed. Falling back to normal mode.".

Section Wrapper.

Variable E : env.

(** One call into a wrapped library: logged, then it raises or returns. *)
Definition invoke {V} (c : call) : M V unit :=
  fun h v =>
    ([EvCall c], v,
     match raises E h c with
     | Some x => inl x
     | None => inr tt
     end).

(** [os.path.exists(p)]. *)
Definition os_path_exists {V} (p : string) : M V bool :=
  fun h v => let b := path_exists E h p in ([EvExists p b], v, inr b).

(** A value the environment supplies. *)
Definition ask {V A} (f : env -> list event -> A) : M V A :=
  fun h v => ([], v, inr (f E h)).

(** *** [_load_model], lines 229-243: the pipeline and the stream *)
Definition load_pipe (self : attrs) (model_id : string) : M unit pipe_obj :=
  if Py.endswith model_id ".safetensors" then
    invoke (FromSingleFile model_id) ;;
    invoke (PipeTo (device self) (dtype self)) ;;
    ret (PipeSingleFile model_id (device self) (dtype self))
  else
    invoke (FromPretrained model_id) ;;
    invoke (PipeTo (device self) (dtype self)) ;;
    ret (PipePretrained model_id (device self) (dtype self)).

Definition new_stream (self : attrs) (pipe : pipe_obj)
    (t_index_list : list Z) (is_drawing : bool) : stream_obj :=
  {| s_pipe := pipe; s_t_index_list := t_index_list;
     s_torch_dtype := dtype self; s_width := width self;
     s_height := height self; s_is_drawing := is_drawing;
     s_frame_buffer_size := frame_buffer_size self;
     s_unet := TorchUNet pipe; s_vae := fresh_vae (TorchVAE pipe) |}.

(** *** lines 244-250: LCM-LoRA *)
Definition load_lcm_lora (model_id : string) (lcm_lora_id : option string)
    (use_lcm_lora : bool) : M stream_obj unit :=
  when (negb (Py.contains "turbo" model_id))
    (when use_lcm_lora
       (match lcm_lora_id with
        | Some id => invoke (LoadLcmLora (Some id))
        | None => invoke (LoadLcmLora None)
        end ;;
        invoke FuseLora)).

(** *** lines 252-256: the tiny VAE *)
Definition load_tiny_vae (pipe : pipe_obj) (vae_id : option string)
    (use_tiny_vae : bool) : M stream_obj unit :=
  when use_tiny_vae
    (match vae_id with
     | Some id =>
         invoke (TinyVaeFromPretrained id) ;;
         invoke (TinyVaeTo pipe) ;;
         modify (set_vae (fresh_vae (TinyVAE id pipe)))
     | None =>
         invoke (TinyVaeFromPretrained "madebyollin/taesd") ;;
         invoke (TinyVaeTo pipe) ;;
         modify (set_vae (fresh_vae (TinyVAE "madebyollin/taesd" pipe)))
     end).

(** *** lines 261-368: the TensorRT branch *)
Definition enable_tensorrt (self : attrs) (model_id : string)
    (use_lcm_lora use_tiny_vae : bool) : M stream_obj unit :=
  invoke (Import "streamdiffusion.acceleration.tensorrt") ;;
  invoke (Import "streamdiffusion.acceleration.tensorrt.engine") ;;
  invoke (Import "streamdiffusion.acceleration.tensorrt.models") ;;
  let unet_path := unet_path self model_id use_lcm_lora use_tiny_vae in
  let vae_encoder_path := vae_encoder_path self model_id use_lcm_lora use_tiny_vae in
  let vae_decoder_path := vae_decoder_path self model_id use_lcm_lora use_tiny_vae in
  (* lines 295-312 *)
  found <- os_path_exists unet_path ;;
  when (negb found)
    (invoke (Makedirs (Py.dirname unet_path)) ;;
     stream <- get ;;
     invoke (NewUNetModel (s_unet stream) (batch_size self) (batch_size self)) ;;
     invoke (CompileUnet (s_unet stream)
               (unet_path ++ ".onnx")%string (unet_path ++ ".opt.onnx")%string
               unet_path (batch_size self))) ;;
  (* lines 314-330 *)
  found <- os_path_exists vae_decoder_path ;;
  when (negb found)
    (invoke (Makedirs (Py.dirname vae_decoder_path)) ;;
     modify (fun s => set_vae (set_vae_forward true (s_vae s)) s) ;;
     invoke (NewVAEModel (vae_batch_size self) (vae_batch_size self)) ;;
     stream <- get ;;
     invoke (CompileVaeDecoder (s_vae stream)
               (vae_decoder_path ++ ".onnx")%string
               (vae_decoder_path ++ ".opt.onnx")%string
               vae_decoder_path (vae_batch_size self)) ;;
     modify (fun s => set_vae (set_vae_forward false (s_vae s)) s)) ;;
  (* lines 332-347 *)
  found <- os_path_exists vae_encoder_path ;;
  when (negb found)
    (invoke (Makedirs (Py.dirname vae_encoder_path)) ;;
     stream <- get ;;
     invoke (NewTorchVAEEncoder (s_vae stream)) ;;
     invoke (NewVAEEncoderModel (vae_batch_size self) (vae_batch_size self)) ;;
     invoke (CompileVaeEncoder (s_vae stream)
               (vae_encoder_path ++ ".onnx")%string
               (vae_encoder_path ++ ".opt.onnx")%string
               vae_encoder_path (vae_batch_size self))) ;;
  (* lines 349-368 *)
  invoke NewCudaStream ;;
  stream <- get ;;
  let config := vae_config (s_vae stream) in
  let dt := vae_dtype (s_vae stream) in
  invoke (NewUNetEngine unet_path) ;;
  modify (set_unet (UNetEngine unet_path)) ;;
  invoke (NewKLEngine vae_encoder_path vae_decoder_path) ;;
  modify (set_vae (fresh_vae
            (KLEngine vae_encoder_path vae_decoder_path (s_pipe stream)))) ;;
  modify (fun s => set_vae (set_vae_config config (s_vae s)) s) ;;
  modify (fun s => set_vae (set_vae_dtype dt (s_vae s)) s) ;;
  invoke GcCollect ;;
  invoke CudaEmptyCache ;;
  emit (EvPrint "TensorRT acceleration enabled.").

(** [stream = accelerate_with_stable_fast(stream)]: the one call of the
    [try] body that is handed the stream object itself, so the one
    call that can reassign its attributes. *)
Definition accelerate_with_stable_fast : M stream_obj unit :=
  fun h stream =>
    ([EvCall (AccelerateSfast stream)],
     match raises E h (AccelerateSfast stream) with
     | Some _ => sfast_interrupted E h stream
     | None => sfast_result E h stream
     end,
     match raises E h (AccelerateSfast stream) with
     | Some x => inl x
     | None => inr tt
     end).

(** *** lines 369-373: the stable-fast branch *)
Definition enable_sfast : M stream_obj unit :=
  invoke (Import "streamdiffusion.acceleration.sfast") ;;
  accelerate_with_stable_fast ;;
  emit (EvPrint "StableFast acceleration enabled.").

(** *** lines 259-373: the body of the [try] statement *)
Definition enable_acceleration (self : attrs) (model_id acceleration : string)
    (use_lcm_lora use_tiny_vae : bool) : M stream_obj unit :=
  when (String.eqb acceleration "xformers") (invoke EnableXformers) ;;
  when (String.eqb acceleration "tensorrt")
    (enable_tensorrt self model_id use_lcm_lora use_tiny_vae) ;;
  when (String.eqb acceleration "sfast") enable_sfast.

(** *** lines 374-376: the [except Exception] handler *)
Definition fallback (e : exn) : M stream_obj unit :=
  emit (EvPrintExc e) ;;
  emit (EvPrint fallback_message).

(** *** [_load_model] *)
Definition _load_model (self : attrs) (model_id : string)
    (t_index_list : list Z) (lcm_lora_id vae_id : option string)
    (acceleration : string) (warmup : Z)
    (is_drawing use_lcm_lora use_tiny_vae : bool) : M unit stream_obj :=
  pipe <- load_pipe self model_id ;;
  invoke (NewStreamDiffusion pipe t_index_list (dtype self) (width self)
            (height self) is_drawing (frame_buffer_size self)) ;;
  with_local (new_stream self pipe t_index_list is_drawing)
    (load_lcm_lora model_id lcm_lora_id use_lcm_lora ;;
     load_tiny_vae pipe vae_id use_tiny_vae ;;
     try_except
       (enable_acceleration self model_id acceleration use_lcm_lora use_tiny_vae)
       fallback ;;
     invoke (StreamPrepare "" 50 (Some (ManualSeed 2))) ;;
     get).

(** *** [__init__] *)
Definition __init__ (a : init_args) : M unit wrapper :=
  let self :=
    {| device := a_device a; dtype := a_dtype a; width := a_width a;
       height := a_height a; mode := a_mode a;
       frame_buffer_size := a_frame_buffer_size a;
       batch_size := Z.of_nat (length (a_t_index_list a)) * a_frame_buffer_size a |} in
  stream <- _load_model self (a_model_id a) (a_t_index_list a)
              (a_lcm_lora_id a) (a_vae_id a) (a_acceleration a) (a_warmup a)
              (a_is_drawing a) (a_use_lcm_lora a) (a_use_tiny_vae a) ;;
  with_local {| self_attrs := self; self_stream := stream |}
    (match a_device_ids a with
     | Some device_ids =>
         self <- get ;;
         invoke (NewDataParallel (s_unet (self_stream self)) device_ids) ;;
         modify (fun w => set_stream
                   (set_unet (DataParallel (s_unet (self_stream self)) device_ids)
                             (self_stream w)) w)
     | None => ret tt
     end ;;
     when (a_enable_similar_image_filter a)
       (invoke (EnableSimilarImageFilter (a_similar_image_filter_threshold a))) ;;
     get).

(** *** [prepare] *)
Definition prepare (prompt : string) (num_inference_steps : Z) : M wrapper unit :=
  invoke (StreamPrepare prompt num_inference_steps None).

(** *** [postprocess_image] *)
Definition postprocess_image (image_tensor : tensor) : M wrapper images :=
  self <- get ;;
  if 1 <? frame_buffer_size (self_attrs self) then
    invoke (TensorCpu image_tensor) ;;
    invoke (PostprocessImage (OnCpu image_tensor) "pil") ;;
    n <- ask (fun E h => num_images E h (OnCpu image_tensor)) ;;
    ret (ImageList (map (Postprocessed (OnCpu image_tensor)) (seq 0 n)))
  else
    invoke (TensorCpu image_tensor) ;;
    invoke (PostprocessImage (OnCpu image_tensor) "pil") ;;
    n <- ask (fun E h => num_images E h (OnCpu image_tensor)) ;;
    match map (Postprocessed (OnCpu image_tensor)) (seq 0 n) with
    | im :: _ => ret (OneImage im)
    | [] => raise IndexError
    end.

(** *** [txt2img] *)
Definition txt2img : M wrapper images :=
  self <- get ;;
  image_tensor <-
    (if 1 <? frame_buffer_size (self_attrs self) then
       invoke (StreamTxt2ImgBatch (batch_size (self_attrs self))) ;;
       ret (Txt2ImgBatchOut (batch_size (self_attrs self)))
     else
       invoke StreamTxt2Img ;;
       ret Txt2ImgOut) ;;
  postprocess_image image_tensor.

(** *** [preprocess_image] *)
Definition preprocess_image (image : image_arg) : M wrapper tensor :=
  self <- get ;;
  let w := width (self_attrs self) in
  let h := height (self_attrs self) in
  image <-
    match image with
    | ArgPath path =>
        invoke (ImageOpen path) ;;
        invoke (ImageConvert "RGB" (Opened path)) ;;
        invoke (ImageResize w h (Converted "RGB" (Opened path))) ;;
        ret (ArgImage (Resized w h (Converted "RGB" (Opened path))))
    | _ => ret image
    end ;;
  image <-
    match image with
    | ArgImage im =>
        invoke (ImageConvert "RGB" im) ;;
        invoke (ImageResize w h (Converted "RGB" im)) ;;
        ret (ArgImage (Resized w h (Converted "RGB" im)))
    | _ => ret image
    end ;;
  invoke (ProcessorPreprocess image h w) ;;
  invoke (TensorTo (device (self_attrs self)) (dtype (self_attrs self))
            (Preprocessed image h w)) ;;
  ret (MovedTo (device (self_attrs self)) (dtype (self_attrs self))
         (Preprocessed image h w)).

(** *** [img2img] *)
Definition img2img (image : image_arg) : M wrapper (images * skip_prob) :=
  image <-
    match image with
    | ArgPath _ | ArgImage _ =>
        t <- preprocess_image image ;;
        ret (ArgTensor t)
    | _ => ret image
    end ;;
  invoke (StreamCall image) ;;
  let image_tensor := StreamOut image in
  let skip := SkipProb image in
  out <- postprocess_image image_tensor ;;
  ret (out, skip).

(** *** [__call__] *)
Definition __call__ (image : image_arg) : M wrapper retval :=
  self <- get ;;
  if String.eqb (mode (self_attrs self)) "img2img" then
    r <- img2img image ;;
    ret (RetTuple (fst r) (snd r))
  else
    r <- txt2img ;;
    ret (RetImages r).

End Wrapper.

(** ** Vocabulary for the statements *)

(** The steps of construction, in the order the docstring of
    [_load_model] lists them; [AfterLoad] is what [__init__] does once
    [_load_model] has returned, [Inference] is everything else. *)
Inductive step :=
| BuildPipeline | FuseLoRA | SwapVAE | Accelerate | PrepareStream
| AfterLoad | Inference.

Definition rank (s : step) : nat :=
  match s with
  | BuildPipeline => 0 | FuseLoRA => 1 | SwapVAE => 2 | Accelerate => 3
  | PrepareStream => 4 | AfterLoad => 5 | Inference => 6
  end.

Definition step_of_call (c : call) : step :=
  match c with
  | FromSingleFile _ | FromPretrained _ | PipeTo _ _
  | NewStreamDiffusion _ _ _ _ _ _ _ => BuildPipeline
  | LoadLcmLora _ | FuseLora => FuseLoRA
  | TinyVaeFromPretrained _ | TinyVaeTo _ => SwapVAE
  | EnableXformers | Import _ | Makedirs _
  | NewUNetModel _ _ _ | CompileUnet _ _ _ _ _
  | NewVAEModel _ _ | CompileVaeDecoder _ _ _ _ _
  | NewTorchVAEEncoder _ | NewVAEEncoderModel _ _ | CompileVaeEncoder _ _ _ _ _
  | NewCudaStream | NewUNetEngine _ | NewKLEngine _ _
  | GcCollect | CudaEmptyCache | AccelerateSfast _ => Accelerate
  | StreamPrepare _ _ (Some _) => PrepareStream
  | NewDataParallel _ _ | EnableSimilarImageFilter _ => AfterLoad
  | _ => Inference
  end.

Definition step_of (e : event) : step :=
  match e with
  | EvCall c => step_of_call c
  | EvExists _ _ | EvPrintExc _ | EvPrint _ => Accelerate
  end.


(** Every event [m] emits satisfies [P], whatever the start. *)
Definition emits {V A} (P : event -> Prop) (m : M V A) : Prop :=
  forall h v, Forall P (events (m h v)).


(** Where an event names an engine file, it names one of the three
    given paths, each in its own role. *)
Definition names_engine_paths (unet enc dec : string) (e : event) : Prop :=
  match e with
  | EvExists p _ => p = unet \/ p = dec \/ p = enc
  | EvCall (CompileUnet _ _ _ p _) => p = unet
  | EvCall (NewUNetEngine p) => p = unet
  | EvCall (CompileVaeDecoder _ _ _ p _) => p = dec
  | EvCall (CompileVaeEncoder _ _ _ p _) => p = enc
  | EvCall (NewKLEngine e d) => e = enc /\ d = dec
  | _ => True
  end.

(** The engine file a compilation call writes. *)
Definition compiles (c : call) : option string :=
  match c with
  | CompileUnet _ _ _ p _ => Some p
  | CompileVaeDecoder _ _ _ p _ => Some p
  | CompileVaeEncoder _ _ _ p _ => Some p
  | _ => None
  end.

(** Steps 1-3 of [_load_model] (lines 229-256): the program up to the
    [try] statement, returning the stream as the [try] statement finds it. *)
Definition entering_try (E : env) (self : attrs) (model_id : string)
    (t_index_list : list Z) (lcm_lora_id vae_id : option string)
    (is_drawing use_lcm_lora use_tiny_vae : bool) : M unit stream_obj :=
  pipe <- load_pipe E self model_id ;;
  invoke E (NewStreamDiffusion pipe t_index_list (dtype self) (width self)
              (height self) is_drawing (frame_buffer_size self)) ;;
  with_local (new_stream self pipe t_index_list is_drawing)
    (load_lcm_lora E model_id lcm_lora_id use_lcm_lora ;;
     load_tiny_vae E pipe vae_id use_tiny_vae ;;
     get).

(** The public methods of a constructed wrapper, and a caller that runs
    a sequence of them, going on after a method that raised. *)
Inductive method :=
| Prepare (prompt : string) (num_inference_steps : Z)
| Call (image : image_arg)
| Txt2img
| Img2img (image : image_arg)
| PreprocessImage (image : image_arg)
| PostprocessImageOf (image_tensor : tensor).

Definition run_method (E : env) (m : method) (h : list event) (w : wrapper)
    : list event * wrapper :=
  match m with
  | Prepare p n => let o := prepare E p n h w in (events o, state o)
  | Call i => let o := __call__ E i h w in (events o, state o)
  | Txt2img => let o := txt2img E h w in (events o, state o)
  | Img2img i => let o := img2img E i h w in (events o, state o)
  | PreprocessImage i => let o := preprocess_image E i h w in (events o, state o)
  | PostprocessImageOf t => let o := postprocess_image E t h w in (events o, state o)
  end.

Fixpoint run_methods (E : env) (ms : list method) (h : list event) (w : wrapper)
    : list event * wrapper :=
  match ms with
  | [] => ([], w)
  | m :: ms' =>
      let (e1, w1) := run_method E m h w in
      let (e2, w2) := run_methods E ms' (h ++ e1) w1 in
      (e1 ++ e2, w2)
  end.

(** ** Sample environments and configurations *)

Definition RuntimeError : exn :=
  {| exn_class := "RuntimeError"; exn_is_Exception := true |}.

Definition KeyboardInterrupt : exn :=
  {| exn_class := "KeyboardInterrupt"; exn_is_Exception := false |}.

(** Exactly the calls selected by [bad] raise [x]; all engine files are
    cached or none is; every tensor decodes to [n] images; stable-fast
    hands back the stream it was given. *)
Definition sample_env (bad : call -> bool) (x : exn) (cached : bool) (n : nat) : env :=
  {| raises := fun _ c => if bad c then Some x else None;
     path_exists := fun _ _ => cached;
     num_images := fun _ _ => n;
     sfast_result := fun _ s => s;
     sfast_interrupted := fun _ s => s |}.

Definition no_call (c : call) : bool := false.

Definition is_compile_unet (c : call) : bool :=
  match c with CompileUnet _ _ _ _ _ => true | _ => false end.

Definition is_new_kl_engine (c : call) : bool :=
  match c with NewKLEngine _ _ => true | _ => false end.

Definition sample_self (m : string) (fbs : Z) : attrs :=
  {| device := "cuda"; dtype := "float16"; width := 512; height := 512;
     mode := m; frame_buffer_size := fbs; batch_size := 4 * fbs |}.

Definition sample_pipe : pipe_obj := PipePretrained "KBlueLeaf/kohaku-v2.1" "cuda" "float16".

Definition sample_stream (m : string) (fbs : Z) : stream_obj :=
  new_stream (sample_self m fbs) sample_pipe [0; 16; 32; 45] true.

Definition sample_wrapper (m : string) (fbs : Z) : wrapper :=
  {| self_attrs := sample_self m fbs; self_stream := sample_stream m fbs |}.

Definition sample_args (m acceleration : string) (fbs : Z) : init_args :=
  {| a_model_id := "KBlueLeaf/kohaku-v2.1";
     a_t_index_list := [0; 16; 32; 45];
     a_mode := m;
     a_lcm_lora_id := None;
     a_vae_id := None;
     a_device := "cuda";
     a_dtype := "float16";
     a_frame_buffer_size := fbs;
     a_width := 512;
     a_height := 512;
     a_warmup := 10;
     a_acceleration := acceleration;
     a_is_drawing := true;
     a_device_ids := None;
     a_use_lcm_lora := true;
     a_use_tiny_vae := true;
     a_enable_similar_image_filter := false;
     a_similar_image_filter_threshold := (95 # 100)%Q |}.

(** [m] leaves the state in scope as it found it. *)
Definition read_only {V A} (m : M V A) : Prop :=
  forall h v, state (m h v) = v.

(** ** Vocabulary for further statements *)

(** No character of [s] is a dash. *)
Fixpoint dash_free (s : string) : bool :=
  match s with
  | EmptyString => true
  | String c r => negb (Ascii.eqb c "-") && dash_free r
  end.

(** The last event of a run, if that is a call. *)
Definition last_call (ev : list event) : option call :=
  match last ev (EvPrint "") with
  | EvCall c => Some c
  | _ => None
  end.

(** The attributes [__init__] computes from its arguments (lines 41-47). *)
Definition init_self (a : init_args) : attrs :=
  {| device := a_device a; dtype := a_dtype a; width := a_width a;
     height := a_height a; mode := a_mode a;
     frame_buffer_size := a_frame_buffer_size a;
     batch_size := Z.of_nat (length (a_t_index_list a)) * a_frame_buffer_size a |}.

(** The pipeline object [_load_model] builds (lines 229-234). *)
Definition loaded_pipe (self : attrs) (model_id : string) : pipe_obj :=
  if Py.endswith model_id ".safetensors"
  then PipeSingleFile model_id (device self) (dtype self)
  else PipePretrained model_id (device self) (dtype self).

(** A loading call is made with the wrapper's own configuration. *)
Definition loads_as_configured (self : attrs) (model_id : string)
    (t_index_list : list Z) (is_drawing : bool) (e : event) : Prop :=
  match e with
  | EvCall (FromSingleFile id) =>
      Py.endswith model_id ".safetensors" = true /\ id = model_id
  | EvCall (FromPretrained id) =>
      Py.endswith model_id ".safetensors" = false /\ id = model_id
  | EvCall (PipeTo d t) => d = device self /\ t = dtype self
  | EvCall (NewStreamDiffusion p til dt w h dr f) =>
      p = loaded_pipe self model_id /\ til = t_index_list /\ dt = dtype self /\
      w = width self /\ h = height self /\ dr = is_drawing /\
      f = frame_buffer_size self
  | EvCall (TinyVaeTo p) => p = loaded_pipe self model_id
  | _ => True
  end.

(** The stream once both TensorRT engines are in place (lines 351-363):
    the UNet engine, and the VAE engine carrying the [config] and
    [dtype] of the VAE it replaces. *)
Definition tensorrt_stream (unet enc dec : string) (s : stream_obj) : stream_obj :=
  set_vae
    {| vae_module := KLEngine enc dec (s_pipe s);
       vae_forward := false;
       vae_config := vae_config (s_vae s);
       vae_dtype := vae_dtype (s_vae s) |}
    (set_unet (UNetEngine unet) s).

(** The stream a failed TensorRT or xformers setup leaves behind, by the
    call that raised. *)
Definition stream_after_failure (unet enc dec : string) (failed : option call)
    (s : stream_obj) : stream_obj :=
  match failed with
  | Some (NewVAEModel _ _) | Some (CompileVaeDecoder _ _ _ _ _) =>
      set_vae (set_vae_forward true (s_vae s)) s
  | Some (NewKLEngine _ _) => set_unet (UNetEngine unet) s
  | Some GcCollect | Some CudaEmptyCache => tensorrt_stream unet enc dec s
  | _ => s
  end.

(** Further selections of failing calls for the sample environments. *)
Definition is_from_pretrained (c : call) : bool :=
  match c with FromPretrained _ => true | _ => false end.

Definition is_stream_prepare (c : call) : bool :=
  match c with StreamPrepare _ _ _ => true | _ => false end.


(** The engine files a call loads (lines 354-361): the UNet engine
    constructor reads the UNet file, the VAE engine constructor reads the
    encoder file and the decoder file. *)
Definition loads (c : call) : list string :=
  match c with
  | NewUNetEngine p => [p]
  | NewKLEngine e d => [e; d]
  | _ => []
  end.

(** The four calls that load the pipeline and build the stream on it
    (lines 229-243). *)
Definition builds_pipeline (e : event) : bool :=
  match e with
  | EvCall (FromSingleFile _) | EvCall (FromPretrained _)
  | EvCall (PipeTo _ _) | EvCall (NewStreamDiffusion _ _ _ _ _ _ _) => true
  | _ => false
  end.

Definition is_pipe_to (c : call) : bool :=
  match c with PipeTo _ _ => true | _ => false end.

(** A wrapper with the mode and batch size of [sample_self "img2img" 1]
    on another device, in another precision and at another image size. *)
Definition wide_self : attrs :=
  {| device := "cpu"; dtype := "float32"; width := 1024; height := 768;
     mode := "img2img"; frame_buffer_size := 1; batch_size := 4 |}.
(** * Properties *)

(** ** The string and path functions on the values the wrapper meets *)

Example dirname_of_engine_path :
  Py.dirname "engines/m--x/unet.engine" = "engines/m--x".
Proof. reflexivity. Qed.

Example dirname_at_root : Py.dirname "/unet.engine" = "/".
Proof. reflexivity. Qed.

Example dirname_of_bare_file : Py.dirname "unet.engine" = "".
Proof. reflexivity. Qed.

Example join_keeps_nested_model_id :
  Py.join "engines" ["a/b"; "unet.engine"] = "engines/a/b/unet.engine".
Proof. reflexivity. Qed.

Example join_restarts_at_absolute_component :
  Py.join "engines" ["/abs"; "unet.engine"] = "/abs/unet.engine".
Proof. reflexivity. Qed.

Example turbo_in_model_id : Py.contains "turbo" "stabilityai/sd-turbo" = true.
Proof. reflexivity. Qed.

Example safetensors_suffix : Py.endswith "m.safetensors" ".safetensors" = true.
Proof. reflexivity. Qed.

Example str_of_ints : Py.str_int (-12) = "-12" /\ Py.str_int 0 = "0".
Proof. split; reflexivity. Qed.

Example unet_prefix_of_sample :
  create_prefix "KBlueLeaf/kohaku-v2.1" true false "img2img" 4 4
  = "KBlueLeaf/kohaku-v2.1--lcm_lora-True--tiny_vae-False--max_batch-4--min_batch-4--mode-img2img".
Proof. reflexivity. Qed.


(** ** Running the monad *)

Section MonadFacts.

Variable E : env.
Context {V : Type}.

Lemma emits_ret {A} P (a : A) : emits P (@ret V A a).
Proof. intros h v. constructor. Qed.

Lemma emits_raise {A} P x : emits P (@raise V A x).
Proof. intros h v. constructor. Qed.

Lemma emits_get P : emits P (@get V).
Proof. intros h v. constructor. Qed.

Lemma emits_put P v0 : emits P (@put V v0).
Proof. intros h v. constructor. Qed.

Lemma emits_modify P f : emits P (@modify V f).
Proof. intros h v. constructor. Qed.

Lemma emits_ask {A} P (f : env -> list event -> A) : emits P (@ask E V A f).
Proof. intros h v. constructor. Qed.

Lemma emits_emit P e : P e -> emits P (@emit V e).
Proof. intros H h v. repeat constructor. exact H. Qed.

Lemma emits_invoke P c : P (EvCall c) -> emits P (@invoke E V c).
Proof. intros H h v. repeat constructor. exact H. Qed.

Lemma emits_exists P p : (forall b, P (EvExists p b)) -> emits P (@os_path_exists E V p).
Proof. intros H h v. repeat constructor. apply H. Qed.

Lemma emits_bind {A B} P (m : M V A) (k : A -> M V B) :
  emits P m -> (forall a, emits P (k a)) -> emits P (bind m k).
Proof.
  intros Hm Hk h v. unfold bind.
  specialize (Hm h v).
  destruct (m h v) as [[e1 v1] [x | a]]; simpl in *; [exact Hm |].
  specialize (Hk a (h ++ e1) v1).
  destruct (k a (h ++ e1) v1) as [[e2 v2] r]; simpl in *.
  apply Forall_app; split; assumption.
Qed.

Lemma emits_when P b (m : M V unit) : emits P m -> emits P (when b m).
Proof. intros H. destruct b; [exact H | apply emits_ret]. Qed.

Lemma emits_try P (body : M V unit) handler :
  emits P body -> (forall x, emits P (handler x)) -> emits P (try_except body handler).
Proof.
  intros Hb Hh h v. unfold try_except.
  specialize (Hb h v).
  destruct (body h v) as [[e1 v1] [x | a]]; simpl in *; [| exact Hb].
  destruct (exn_is_Exception x); [| exact Hb].
  specialize (Hh x (h ++ e1) v1).
  destruct (handler x (h ++ e1) v1) as [[e2 v2] r]; simpl in *.
  apply Forall_app; split; assumption.
Qed.

Lemma emits_weaken {A} (P Q : event -> Prop) (m : M V A) :
  (forall e, P e -> Q e) -> emits P m -> emits Q m.
Proof. intros HPQ H h v. eapply Forall_impl; [exact HPQ | apply H]. Qed.

End MonadFacts.

Lemma emits_with_local {W V A} P (init : V) (m : M V A) :
  emits P m -> emits P (@with_local W V A init m).
Proof.
  intros H h w. unfold with_local. specialize (H h init).
  destruct (m h init) as [[e v] r]; exact H.
Qed.

(** Breaks a goal [emits P m] down along the structure of [m]; what is
    left is [P] at each emitted event. *)
Ltac emits_tac :=
  repeat first
    [ apply emits_bind; [| intros ?]
    | apply emits_ret | apply emits_raise | apply emits_get
    | apply emits_put | apply emits_modify | apply emits_ask
    | apply emits_when
    | apply emits_try; [| intros ?]
    | apply emits_with_local
    | apply emits_invoke | apply emits_emit
    | apply emits_exists; intros ?
    | match goal with
      | |- emits _ (match ?x with _ => _ end) => destruct x
      end ].

(** Case analysis on membership in a concrete event list. *)
Ltac in_cases :=
  repeat match goal with
    | Hin : _ \/ _ |- _ => destruct Hin as [Hin | Hin]
    | Hin : False |- _ => destruct Hin
    | Hin : EvCall _ = EvCall _ |- _ => inversion Hin; subst; clear Hin
    | Hin : EvExists _ _ = EvCall _ |- _ => discriminate Hin
    | Hin : EvPrint _ = EvCall _ |- _ => discriminate Hin
    | Hin : EvPrintExc _ = EvCall _ |- _ => discriminate Hin
    end.

(** ** Step order *)







Section StepsOfLoadModel.

Variable E : env.
Variable self : attrs.
Variables model_id acceleration : string.
Variable t_index_list : list Z.
Variables lcm_lora_id vae_id : option string.
Variable warmup : Z.
Variables is_drawing use_lcm_lora use_tiny_vae : bool.

Lemma load_pipe_step :
  emits (fun e => rank (step_of e) = 0%nat) (load_pipe E self model_id).
Proof. unfold load_pipe. emits_tac; reflexivity. Qed.


Lemma load_tiny_vae_step pipe :
  emits (fun e => rank (step_of e) = 2%nat) (load_tiny_vae E pipe vae_id use_tiny_vae).
Proof. unfold load_tiny_vae. emits_tac; reflexivity. Qed.

Lemma enable_acceleration_step :
  emits (fun e => rank (step_of e) = 3%nat)
        (enable_acceleration E self model_id acceleration use_lcm_lora use_tiny_vae).
Proof.
  unfold enable_acceleration, enable_tensorrt, enable_sfast.
  emits_tac; try reflexivity.
  intros h v. repeat constructor.
Qed.

Lemma fallback_step x :
  emits (fun e => rank (step_of e) = 3%nat) (fallback x).
Proof. unfold fallback. emits_tac; reflexivity. Qed.


End StepsOfLoadModel.
(** ** Engine paths *)

Lemma chars_append (a b : string) :
  list_ascii_of_string (a ++ b)%string
  = list_ascii_of_string a ++ list_ascii_of_string b.
Proof. induction a as [| c a IH]; simpl; [reflexivity | now rewrite IH]. Qed.

Lemma append_assoc (a b c : string) :
  ((a ++ b) ++ c)%string = (a ++ (b ++ c))%string.
Proof. induction a as [| x a IH]; simpl; [reflexivity | now rewrite IH]. Qed.

(** Two strings whose tails agree up to one differing character differ. *)
Lemma suffix_clash (q1 q2 : string) (a b : ascii) (t : string) :
  a <> b -> (q1 ++ String a t)%string <> (q2 ++ String b t)%string.
Proof.
  intros Hab H. apply (f_equal list_ascii_of_string) in H.
  rewrite !chars_append in H. simpl in H.
  change (a :: list_ascii_of_string t) with ([a] ++ list_ascii_of_string t) in H.
  change (b :: list_ascii_of_string t) with ([b] ++ list_ascii_of_string t) in H.
  rewrite !app_assoc in H. apply app_inv_tail in H.
  apply app_inj_tail in H. destruct H as [_ H]. contradiction.
Qed.

(** [os.path.join] ends with its last component when that component is
    relative. *)
Lemma join_keeps_file (a x file : string) :
  Py.startswith file "/" = false ->
  exists q, Py.join a [x; file] = (q ++ file)%string.
Proof.
  intros H. unfold Py.join. simpl. unfold Py.join2 at 1. rewrite H.
  destruct (_ || _)%bool.
  - eexists. reflexivity.
  - eexists. rewrite <- append_assoc. reflexivity.
Qed.

Section EnginePaths.

Variable self : attrs.
Variable model_id : string.
Variables use_lcm_lora use_tiny_vae : bool.

Let unet := unet_path self model_id use_lcm_lora use_tiny_vae.
Let enc := vae_encoder_path self model_id use_lcm_lora use_tiny_vae.
Let dec := vae_decoder_path self model_id use_lcm_lora use_tiny_vae.

Lemma unet_path_file : exists q, unet = (q ++ "unet.engine")%string.
Proof. apply join_keeps_file. reflexivity. Qed.

Lemma vae_encoder_path_file : exists q, enc = (q ++ "vae_encoder.engine")%string.
Proof. apply join_keeps_file. reflexivity. Qed.

Lemma vae_decoder_path_file : exists q, dec = (q ++ "vae_decoder.engine")%string.
Proof. apply join_keeps_file. reflexivity. Qed.

Lemma unet_path_not_decoder : unet <> dec.
Proof.
  destruct unet_path_file as [q1 ->], vae_decoder_path_file as [q2 ->].
  change "unet.engine" with ("une" ++ String "t" ".engine")%string.
  change "vae_decoder.engine" with ("vae_decode" ++ String "r" ".engine")%string.
  rewrite <- !append_assoc. apply suffix_clash. discriminate.
Qed.

Lemma unet_path_not_encoder : unet <> enc.
Proof.
  destruct unet_path_file as [q1 ->], vae_encoder_path_file as [q2 ->].
  change "unet.engine" with ("une" ++ String "t" ".engine")%string.
  change "vae_encoder.engine" with ("vae_encode" ++ String "r" ".engine")%string.
  rewrite <- !append_assoc. apply suffix_clash. discriminate.
Qed.

Lemma decoder_path_not_encoder : dec <> enc.
Proof.
  destruct vae_decoder_path_file as [q1 ->], vae_encoder_path_file as [q2 ->].
  change "vae_decoder.engine" with ("vae_d" ++ String "e" "coder.engine")%string.
  change "vae_encoder.engine" with ("vae_e" ++ String "n" "coder.engine")%string.
  rewrite <- !append_assoc. apply suffix_clash. discriminate.
Qed.

End EnginePaths.

(** ** More on engine paths *)

Lemma append_inj_l (a x y : string) : (a ++ x)%string = (a ++ y)%string -> x = y.
Proof. induction a as [| c a IH]; simpl; intros H; [exact H | inversion H; auto]. Qed.

Lemma chars_inj (x y : string) :
  list_ascii_of_string x = list_ascii_of_string y -> x = y.
Proof.
  intros H. rewrite <- (string_of_list_ascii_of_string x),
    <- (string_of_list_ascii_of_string y), H. reflexivity.
Qed.

Lemma append_inj_r (x y f : string) : (x ++ f)%string = (y ++ f)%string -> x = y.
Proof.
  intros H. apply chars_inj. apply (f_equal list_ascii_of_string) in H.
  rewrite !chars_append in H. eapply app_inv_tail. exact H.
Qed.

Lemma append_nil_r (x : string) : (x ++ "")%string = x.
Proof. induction x as [| c x IH]; simpl; [reflexivity | now rewrite IH]. Qed.

Lemma length_append (x y : string) :
  String.length (x ++ y) = (String.length x + String.length y)%nat.
Proof. induction x as [| c x IH]; simpl; [reflexivity | now rewrite IH]. Qed.

(** The digits of a decimal number hold no dash. *)
Lemma digits_dash_free (d : Decimal.uint) : dash_free (NilEmpty.string_of_uint d) = true.
Proof. induction d; simpl; auto. Qed.

Lemma uint_string_dash_free (d : Decimal.uint) :
  dash_free (NilZero.string_of_uint d) = true.
Proof. destruct d; try reflexivity; apply (digits_dash_free (_ d)). Qed.

Lemma uint_string_nonempty (d : Decimal.uint) : NilZero.string_of_uint d <> "".
Proof. destruct d; discriminate. Qed.

(** Two dash-free strings that agree up to a first dash are equal, and
    so is what follows the dash. *)
Lemma split_at_dash (d d' r r' : string) :
  dash_free d = true -> dash_free d' = true ->
  (d ++ String "-" r)%string = (d' ++ String "-" r')%string ->
  d = d' /\ r = r'.
Proof.
  revert d'. induction d as [| c d IH]; intros [| c' d'] Hd Hd' H; simpl in *.
  - inversion H; auto.
  - inversion H; subst. discriminate Hd'.
  - inversion H; subst. discriminate Hd.
  - inversion H; subst.
    apply andb_true_iff in Hd, Hd'. destruct Hd as [_ Hd], Hd' as [_ Hd'].
    destruct (IH d' Hd Hd' H2) as [-> ->]. auto.
Qed.

Lemma str_int_inj (a b : Z) : Py.str_int a = Py.str_int b -> a = b.
Proof.
  unfold Py.str_int. intros H.
  assert (ok : forall z, Z.to_int z <> Decimal.Pos Decimal.Nil /\
                         Z.to_int z <> Decimal.Neg Decimal.Nil).
  { intros [| p | p]; simpl; split; try discriminate;
      intros Q; inversion Q as [Q']; now apply DecimalPos.Unsigned.to_uint_nonnil in Q'. }
  assert (Q : Some (Z.to_int a) = Some (Z.to_int b)).
  { rewrite <- (NilZero.isi (Z.to_int a)), <- (NilZero.isi (Z.to_int b));
      try apply ok. now rewrite H. }
  inversion Q as [Q'].
  rewrite <- (DecimalZ.of_to a), <- (DecimalZ.of_to b), Q'. reflexivity.
Qed.

(** [str(a)] followed by a dash determines [a] and what follows. *)
Lemma str_int_then_dash (a b : Z) (r r' : string) :
  (Py.str_int a ++ String "-" r)%string = (Py.str_int b ++ String "-" r')%string ->
  a = b /\ r = r'.
Proof.
  intros H.
  assert (Py.str_int a = Py.str_int b /\ r = r') as [Q ->];
    [| split; [now apply str_int_inj | reflexivity]].
  unfold Py.str_int, NilZero.string_of_int in *.
  destruct (Z.to_int a) as [da | da], (Z.to_int b) as [db | db]; simpl in H.
  - apply split_at_dash in H; auto using uint_string_dash_free.
  - pose proof (uint_string_dash_free da) as F.
    pose proof (uint_string_nonempty da) as N.
    destruct (NilZero.string_of_uint da) as [| c s]; [congruence |].
    simpl in H. inversion H; subst. discriminate F.
  - pose proof (uint_string_dash_free db) as F.
    pose proof (uint_string_nonempty db) as N.
    destruct (NilZero.string_of_uint db) as [| c s]; [congruence |].
    simpl in H. inversion H; subst. discriminate F.
  - inversion H as [H'].
    apply split_at_dash in H'; auto using uint_string_dash_free.
    destruct H' as [-> ->]. auto.
Qed.

(** A prefix, followed by anything, determines the flags, the batch
    sizes and the mode with what follows it. *)
Lemma create_prefix_inj (m mode mode' t t' : string) (tv tv' ll ll' : bool)
    (a a' b b' : Z) :
  (create_prefix m tv ll mode a b ++ t)%string
  = (create_prefix m tv' ll' mode' a' b' ++ t')%string ->
  tv = tv' /\ ll = ll' /\ a = a' /\ b = b' /\ (mode ++ t)%string = (mode' ++ t')%string.
Proof.
  unfold create_prefix. rewrite !append_assoc. intros H.
  apply append_inj_l in H.
  destruct tv, tv', ll, ll'; cbv [String.append Py.str_bool] in H;
    fold String.append in H; inversion H as [H1]; clear H.
  all: rewrite ?append_assoc in H1.
  all: apply str_int_then_dash in H1; destruct H1 as [-> H1].
  all: cbv [String.append] in H1; fold String.append in H1;
    inversion H1 as [H2]; clear H1.
  all: rewrite ?append_assoc in H2.
  all: apply str_int_then_dash in H2; destruct H2 as [-> H2].
  all: cbv [String.append] in H2; fold String.append in H2;
    inversion H2 as [H3]; clear H2.
  all: auto.
Qed.

(** [os.path.join("engines", p)]. *)
Lemma join_engines (p : string) :
  Py.join2 "engines" p = if Py.startswith p "/" then p else ("engines/" ++ p)%string.
Proof. unfold Py.join2. destruct (Py.startswith p "/"); reflexivity. Qed.

Lemma prefix_nil (x : string) : String.prefix "" x = true.
Proof. destruct x; reflexivity. Qed.

Lemma prefix_sep_cons (c : ascii) (x : string) :
  String.prefix "/" (String c x) = Ascii.eqb c Py.sep.
Proof.
  change (String.prefix "/" (String c x))
    with (if ascii_dec "/" c then String.prefix "" x else false).
  destruct (ascii_dec "/" c) as [<- | N].
  - now rewrite prefix_nil.
  - symmetry. apply Ascii.eqb_neq. unfold Py.sep. congruence.
Qed.

Lemma contains_cons (sub : string) (c : ascii) (s : string) :
  Py.contains sub (String c s)
  = (String.prefix sub (String c s) || Py.contains sub s)%bool.
Proof. reflexivity. Qed.

Lemma head_cons (c : ascii) (r : string) :
  Py.head_upto_last_sep (String c r)
  = if Py.contains "/" r then String c (Py.head_upto_last_sep r)
    else if Ascii.eqb c Py.sep then "/" else "".
Proof. reflexivity. Qed.

(** A prefix is absolute exactly when the model id is. *)
Lemma prefix_absolute_iff (m mode : string) (tv ll : bool) (a b : Z) :
  Py.startswith (create_prefix m tv ll mode a b) "/" = Py.startswith m "/".
Proof.
  unfold create_prefix, Py.startswith. destruct m as [| c m]; [reflexivity |].
  change (String c m ++ ?r)%string with (String c (m ++ r)).
  now rewrite !prefix_sep_cons.
Qed.

(** The path of an engine file: a base that depends on the model id
    only, the prefix, a slash or nothing, and the file name. *)
Lemma engine_path_shape (m mode f : string) (tv ll : bool) (a b : Z) :
  Py.startswith f "/" = false ->
  exists t,
    (t = "" \/ t = "/") /\
    Py.join engine_dir [create_prefix m tv ll mode a b; f]
    = ((if Py.startswith m "/" then "" else "engines/")
       ++ (create_prefix m tv ll mode a b ++ t) ++ f)%string.
Proof.
  intros Hf. unfold Py.join, engine_dir. simpl.
  rewrite join_engines, prefix_absolute_iff.
  unfold Py.join2 at 1. rewrite Hf.
  destruct (_ || _)%bool; [exists "" | exists "/"];
    (split; [auto |]); destruct (Py.startswith m "/"); simpl;
    rewrite ?append_nil_r, ?append_assoc; reflexivity.
Qed.

Section WhereEnginesGo.

Variable self : attrs.
Variable model_id : string.
Variables use_lcm_lora use_tiny_vae : bool.

Let unet := unet_path self model_id use_lcm_lora use_tiny_vae.
Let enc := vae_encoder_path self model_id use_lcm_lora use_tiny_vae.
Let dec := vae_decoder_path self model_id use_lcm_lora use_tiny_vae.

(** X1: with POSIX path rules, each of the three engine paths is, as a
  string, "engines/" followed by [model_id] as given and by the rest
  when [model_id] does not start with a slash, and [model_id] as
  given followed by the rest, [os.path.join] having dropped
  "engines", when it does.  Nothing normalises the path: a
  [model_id] that starts with "../" gives a path that starts with
  "engines/../". *)
Theorem engine_paths_location (p : string) :
In p [unet; enc; dec] ->
(Py.startswith model_id "/" = false ->
   exists q, p = ("engines/" ++ model_id ++ q)%string) /\
(Py.startswith model_id "/" = true ->
   exists q, p = (model_id ++ q)%string) /\
(forall m, model_id = ("../" ++ m)%string ->
   exists q, p = ("engines/../" ++ m ++ q)%string).
Proof.
assert (shape : forall a b f, Py.startswith f "/" = false ->
          exists q,
            Py.join engine_dir
              [create_prefix model_id use_tiny_vae use_lcm_lora (mode self) a b; f]
            = ((if Py.startswith model_id "/" then "" else "engines/")
               ++ model_id ++ q)%string).
{ intros a b f Hf.
  destruct (engine_path_shape model_id (mode self) f use_tiny_vae use_lcm_lora
              a b Hf) as (t & _ & ->).
  unfold create_prefix. rewrite !append_assoc. eexists. reflexivity. }
intros [<- | [<- | [<- | []]]]; unfold unet, enc, dec, unet_path,
  vae_encoder_path, vae_decoder_path;
  (edestruct shape as [q ->]; [reflexivity |]);
  (split; [| split]; [intros -> | intros -> | intros m ->];
   exists q; reflexivity).
Qed.

End WhereEnginesGo.

(** Equal engine paths for one model id and one file name: equal flags
    and batch sizes, and modes that agree up to a trailing slash. *)
Lemma engine_path_inj (m mode mode' f : string) (tv tv' ll ll' : bool)
    (a a' b b' : Z) :
  Py.startswith f "/" = false ->
  Py.join engine_dir [create_prefix m tv ll mode a b; f]
  = Py.join engine_dir [create_prefix m tv' ll' mode' a' b'; f] ->
  tv = tv' /\ ll = ll' /\ a = a' /\ b = b' /\
  exists t t', (t = "" \/ t = "/") /\ (t' = "" \/ t' = "/") /\
               (mode ++ t)%string = (mode' ++ t')%string.
Proof.
  intros Hf H.
  destruct (engine_path_shape m mode f tv ll a b Hf) as (t & Ht & E1).
  destruct (engine_path_shape m mode' f tv' ll' a' b' Hf) as (t' & Ht' & E2).
  rewrite E1, E2 in H. apply append_inj_l, append_inj_r in H.
  apply create_prefix_inj in H. destruct H as (-> & -> & -> & -> & H).
  repeat split; try reflexivity. exists t, t'. auto.
Qed.

(** X2: what the engine paths tell apart, for one model id.  UNet paths
    of two configurations that differ in [batch_size], [use_lcm_lora]
    or [use_tiny_vae] differ, and so do their VAE encoder and decoder
    paths when the VAE batch size or a flag differs; so does any of
    them when the modes are "img2img" and "txt2img".  Nothing else of
    the wrapper reaches the paths: two wrappers with the same mode,
    batch size and flags have the same three paths, whatever their
    [width], [height], [dtype], [device] and [frame_buffer_size], so
    an engine cached for one image size or precision is the file
    looked up for another. *)
Theorem engine_paths_identify_configuration
    (self1 self2 : attrs) (model_id : string) (ll tv ll' tv' : bool) :
  (batch_size self1 <> batch_size self2 \/ ll <> ll' \/ tv <> tv' \/
   (mode self1 = "img2img" /\ mode self2 = "txt2img") ->
   unet_path self1 model_id ll tv <> unet_path self2 model_id ll' tv') /\
  (vae_batch_size self1 <> vae_batch_size self2 \/ ll <> ll' \/ tv <> tv' \/
   (mode self1 = "img2img" /\ mode self2 = "txt2img") ->
   vae_encoder_path self1 model_id ll tv <> vae_encoder_path self2 model_id ll' tv' /\
   vae_decoder_path self1 model_id ll tv <> vae_decoder_path self2 model_id ll' tv') /\
  (mode self1 = mode self2 -> batch_size self1 = batch_size self2 ->
   ll = ll' -> tv = tv' ->
   unet_path self1 model_id ll tv = unet_path self2 model_id ll' tv' /\
   vae_encoder_path self1 model_id ll tv = vae_encoder_path self2 model_id ll' tv' /\
   vae_decoder_path self1 model_id ll tv = vae_decoder_path self2 model_id ll' tv').
Proof.
  assert (modes : forall t t' : string,
            (t = "" \/ t = "/") -> (t' = "" \/ t' = "/") ->
            ("img2img" ++ t)%string <> ("txt2img" ++ t')%string).
  { intros t t' [-> | ->] [-> | ->]; discriminate. }
  split; [| split].
  - intros D Q. unfold unet_path in Q.
    apply engine_path_inj in Q; [| reflexivity].
    destruct Q as (Q1 & Q2 & Q3 & _ & t & t' & Ht & Ht' & Q5).
    destruct D as [D | [D | [D | [M1 M2]]]]; try congruence.
    rewrite M1, M2 in Q5. exact (modes t t' Ht Ht' Q5).
  - intros D. split; intros Q; unfold vae_encoder_path, vae_decoder_path in Q;
      (apply engine_path_inj in Q; [| reflexivity]);
      destruct Q as (Q1 & Q2 & Q3 & _ & t & t' & Ht & Ht' & Q5);
      (destruct D as [D | [D | [D | [M1 M2]]]]; try congruence);
      rewrite M1, M2 in Q5; exact (modes t t' Ht Ht' Q5).
  - intros Hm Hb <- <-.
    unfold unet_path, vae_encoder_path, vae_decoder_path, vae_batch_size.
    rewrite Hm, Hb. repeat split.
Qed.

(** *** Directories *)

Lemma contains_sep_append (a f : string) :
  Py.contains "/" (a ++ f) = (Py.contains "/" a || Py.contains "/" f)%bool.
Proof.
  induction a as [| c a IH]; [reflexivity |].
  change (String c a ++ f)%string with (String c (a ++ f)).
  rewrite !contains_cons, !prefix_sep_cons, IH. now rewrite orb_assoc.
Qed.

Lemma head_of_sep_free (f : string) :
  Py.contains "/" f = false -> Py.head_upto_last_sep f = "".
Proof.
  induction f as [| c f IH]; [reflexivity |].
  rewrite contains_cons, prefix_sep_cons, head_cons. intros H.
  apply orb_false_iff in H. destruct H as [-> ->]. reflexivity.
Qed.

Lemma head_append_sep_free (x f : string) :
  Py.contains "/" f = false ->
  Py.head_upto_last_sep (x ++ f) = Py.head_upto_last_sep x.
Proof.
  intros Hf. induction x as [| c x IH]; [now apply head_of_sep_free |].
  change (String c x ++ f)%string with (String c (x ++ f)).
  rewrite !head_cons, contains_sep_append, Hf, orb_false_r, IH. reflexivity.
Qed.

(** [os.path.dirname] does not look at a last component without slash. *)
Lemma dirname_append_sep_free (x f : string) :
  Py.contains "/" f = false -> Py.dirname (x ++ f) = Py.dirname x.
Proof.
  intros Hf. unfold Py.dirname. now rewrite head_append_sep_free.
Qed.

Lemma dirname_join_file (x f g : string) :
  Py.startswith f "/" = false -> Py.startswith g "/" = false ->
  Py.contains "/" f = false -> Py.contains "/" g = false ->
  Py.dirname (Py.join2 x f) = Py.dirname (Py.join2 x g).
Proof.
  intros Sf Sg Cf Cg. unfold Py.join2. rewrite Sf, Sg.
  destruct (_ || _)%bool.
  - now rewrite (dirname_append_sep_free x f Cf), (dirname_append_sep_free x g Cg).
  - rewrite <- !append_assoc.
    now rewrite (dirname_append_sep_free _ f Cf), (dirname_append_sep_free _ g Cg).
Qed.

(** X3: the VAE encoder and decoder engines always share one
    directory, and the UNet engine shares it whenever the VAE batch
    size equals [batch_size] (mode "txt2img", or a batch size of 1): the
    later [os.makedirs] calls then name a directory already made. *)
Theorem engine_directories_shared (self : attrs) (model_id : string)
    (use_lcm_lora use_tiny_vae : bool) :
  Py.dirname (vae_encoder_path self model_id use_lcm_lora use_tiny_vae)
  = Py.dirname (vae_decoder_path self model_id use_lcm_lora use_tiny_vae) /\
  (vae_batch_size self = batch_size self ->
   Py.dirname (unet_path self model_id use_lcm_lora use_tiny_vae)
   = Py.dirname (vae_decoder_path self model_id use_lcm_lora use_tiny_vae)).
Proof.
  unfold unet_path, vae_encoder_path, vae_decoder_path, Py.join. simpl. split.
  - apply dirname_join_file; reflexivity.
  - intros ->. apply dirname_join_file; reflexivity.
Qed.

(** ** Inverting runs *)

Lemma bind_inr {V A B} (m : M V A) (k : A -> M V B) h v ev v' (b : B) :
  bind m k h v = (ev, v', inr b) ->
  exists e1 v1 a e2,
    m h v = (e1, v1, inr a) /\ k a (h ++ e1) v1 = (e2, v', inr b) /\ ev = e1 ++ e2.
Proof.
  unfold bind. destruct (m h v) as [[e1 v1] [x | a]]; [discriminate |].
  destruct (k a (h ++ e1) v1) as [[e2 v2] r] eqn:Hk.
  intros H; inversion H; subst. exists e1, v1, a, e2. auto.
Qed.

Lemma with_local_inv {W V A} (init : V) (m : M V A) h (w : W) ev w' r :
  with_local init m h w = (ev, w', r) ->
  exists v', m h init = (ev, v', r) /\ w' = w.
Proof.
  unfold with_local. destruct (m h init) as [[e v] r0].
  intros H; inversion H; subst. eauto.
Qed.


Section Construction.

Variable E : env.




End Construction.

(** ** LCM-LoRA *)

Section LcmLora.

Variable E : env.
Variable self : attrs.
Variables model_id acceleration : string.
Variable t_index_list : list Z.
Variables lcm_lora_id vae_id : option string.
Variable warmup : Z.
Variables is_drawing use_lcm_lora use_tiny_vae : bool.

Let fuses := use_lcm_lora && negb (Py.contains "turbo" model_id).

Lemma lora_events_only_when_fusing :
  emits (fun e => rank (step_of e) = 1%nat -> fuses = true)
        (_load_model E self model_id t_index_list lcm_lora_id vae_id
           acceleration warmup is_drawing use_lcm_lora use_tiny_vae).
Proof.
  assert (other : forall V A p (m : M V A), p <> 1%nat ->
            emits (fun e => rank (step_of e) = p) m ->
            emits (fun e => rank (step_of e) = 1%nat -> fuses = true) m).
  { intros V A p m Hp. apply emits_weaken. intros e He H1. congruence. }
  unfold _load_model.
  apply emits_bind; [apply (other _ _ 0%nat); [lia | apply load_pipe_step] |].
  intros pipe. apply emits_bind; [apply emits_invoke; discriminate |].
  intros _. apply emits_with_local.
  apply emits_bind.
  { unfold load_lcm_lora, fuses.
    destruct (Py.contains "turbo" model_id), use_lcm_lora; simpl;
      emits_tac; try reflexivity; discriminate. }
  intros _. apply emits_bind;
    [apply (other _ _ 2%nat); [lia | apply load_tiny_vae_step] |].
  intros _. apply emits_bind.
  { apply (other _ _ 3%nat); [lia |].
    apply emits_try; [apply enable_acceleration_step | apply fallback_step]. }
  intros _. emits_tac; discriminate.
Qed.

(** C8: the LCM-LoRA is loaded and fused exactly when [use_lcm_lora]
    holds and "turbo" does not occur in [model_id]: a load or a fuse
    call happens only then, a construction that completes under that
    condition has made both calls, and for a [model_id] containing
    "turbo" neither call is made, whatever [use_lcm_lora] and
    [lcm_lora_id] are. *)
Theorem lcm_lora_fused_iff (h : list event) :
  let o := _load_model E self model_id t_index_list lcm_lora_id vae_id
             acceleration warmup is_drawing use_lcm_lora use_tiny_vae h tt in
  (forall id, In (EvCall (LoadLcmLora id)) (events o) \/ In (EvCall FuseLora) (events o) ->
     use_lcm_lora = true /\ Py.contains "turbo" model_id = false) /\
  (forall s, outcome o = inr s ->
     use_lcm_lora = true -> Py.contains "turbo" model_id = false ->
     In (EvCall (LoadLcmLora lcm_lora_id)) (events o) /\
     In (EvCall FuseLora) (events o)) /\
  (Py.contains "turbo" model_id = true ->
     forall id, ~ In (EvCall (LoadLcmLora id)) (events o) /\
                ~ In (EvCall FuseLora) (events o)).
Proof.
  cbv zeta.
  assert (only : forall c, rank (step_of_call c) = 1%nat ->
            In (EvCall c)
               (events (_load_model E self model_id t_index_list lcm_lora_id
                          vae_id acceleration warmup is_drawing use_lcm_lora
                          use_tiny_vae h tt)) ->
            use_lcm_lora = true /\ Py.contains "turbo" model_id = false).
  { intros c Hc Hin.
    pose proof (lora_events_only_when_fusing h tt) as F.
    rewrite Forall_forall in F. specialize (F _ Hin Hc).
    unfold fuses in F. apply andb_true_iff in F. destruct F as [F1 F2].
    apply negb_true_iff in F2. auto. }
  split; [| split].
  - intros id [H | H]; eapply only; try exact H; reflexivity.
  - intros s Hs Hu Ht. unfold outcome in Hs.
    destruct (_load_model _ _ _ _ _ _ _ _ _ _ _ h tt) as [[ev u] r] eqn:H.
    simpl in Hs. subst r. destruct u. unfold events. simpl.
    unfold _load_model in H.
    apply bind_inr in H. destruct H as (e1 & [] & pipe & e2 & _ & H & ->).
    apply bind_inr in H. destruct H as (e3 & [] & [] & e4 & _ & H & ->).
    apply with_local_inv in H. destruct H as (s' & H & _).
    apply bind_inr in H. destruct H as (e5 & s5 & [] & e6 & H5 & _ & ->).
    unfold load_lcm_lora in H5. rewrite Ht, Hu in H5. simpl in H5.
    apply bind_inr in H5. destruct H5 as (e7 & s7 & [] & e8 & H7 & H8 & ->).
    assert (e7 = [EvCall (LoadLcmLora lcm_lora_id)]) as ->.
    { destruct lcm_lora_id; unfold invoke in H7; inversion H7; reflexivity. }
    unfold invoke in H8. inversion H8; subst.
    rewrite !in_app_iff. simpl. tauto.
  - intros Ht id. split; intros H.
    + destruct (only (LoadLcmLora id) eq_refl H) as [_ F]. congruence.
    + destruct (only FuseLora eq_refl H) as [_ F]. congruence.
Qed.

End LcmLora.

(** ** Engine paths are a function of the configuration *)

Section PathsFromConfiguration.

Variable self : attrs.
Variable model_id : string.
Variables use_lcm_lora use_tiny_vae : bool.

(** C7: the engine paths are [engines/<prefix>/<file>], where the
    prefix spells out the model id, [use_tiny_vae] under the label
    [lcm_lora], [use_lcm_lora] under the label [tiny_vae], the two
    batch sizes and the mode; the UNet prefix takes [batch_size] for
    both sizes, the VAE prefixes take [batch_size] in mode "txt2img"
    and 1 in mode "img2img"; and every engine file a run of the
    TensorRT branch names, in any environment and from any state, is
    one of these three paths. *)
Theorem engine_paths_from_configuration :
  let bs := batch_size self in
  let prefix := fun mx mn : Z =>
    (model_id ++ "--lcm_lora-" ++ Py.str_bool use_tiny_vae
     ++ "--tiny_vae-" ++ Py.str_bool use_lcm_lora
     ++ "--max_batch-" ++ Py.str_int mx
     ++ "--min_batch-" ++ Py.str_int mn
     ++ "--mode-" ++ mode self)%string in
  let unet := unet_path self model_id use_lcm_lora use_tiny_vae in
  let enc := vae_encoder_path self model_id use_lcm_lora use_tiny_vae in
  let dec := vae_decoder_path self model_id use_lcm_lora use_tiny_vae in
  unet = Py.join "engines" [prefix bs bs; "unet.engine"] /\
  (mode self = "txt2img" ->
     enc = Py.join "engines" [prefix bs bs; "vae_encoder.engine"] /\
     dec = Py.join "engines" [prefix bs bs; "vae_decoder.engine"]) /\
  (mode self = "img2img" ->
     enc = Py.join "engines" [prefix 1 1; "vae_encoder.engine"] /\
     dec = Py.join "engines" [prefix 1 1; "vae_decoder.engine"]) /\
  (forall E h s,
     Forall (names_engine_paths unet enc dec)
            (events (enable_tensorrt E self model_id use_lcm_lora use_tiny_vae h s))).
Proof.
  cbv zeta. split; [reflexivity |]. split; [| split].
  - intros Hm. unfold vae_encoder_path, vae_decoder_path, vae_batch_size.
    rewrite Hm. split; reflexivity.
  - intros Hm. unfold vae_encoder_path, vae_decoder_path, vae_batch_size.
    rewrite Hm. split; reflexivity.
  - intros E.
    change (emits (names_engine_paths
                     (unet_path self model_id use_lcm_lora use_tiny_vae)
                     (vae_encoder_path self model_id use_lcm_lora use_tiny_vae)
                     (vae_decoder_path self model_id use_lcm_lora use_tiny_vae))
              (enable_tensorrt E self model_id use_lcm_lora use_tiny_vae)).
    unfold enable_tensorrt. emits_tac; simpl; auto.
Qed.

End PathsFromConfiguration.

(** ** Acceleration and its fallback *)

Arguments unet_path : simpl never.
Arguments vae_encoder_path : simpl never.
Arguments vae_decoder_path : simpl never.
Arguments vae_batch_size : simpl never.
Arguments Py.dirname : simpl never.
Arguments String.append : simpl never.

(** Symbolic execution: case analysis on the next answer of the environment. *)
Ltac exec1 :=
  match goal with
  | |- context [raises ?E ?h ?c] => destruct (raises E h c) eqn:?
  | |- context [path_exists ?E ?h ?p] => destruct (path_exists E h p) eqn:?
  end; cbn.

Ltac unfold_run :=
  unfold enable_tensorrt, enable_sfast, accelerate_with_stable_fast,
    bind, when, invoke, os_path_exists, emit, modify, get, put, ret, ask; cbn.

Section Fallback.

Variable E : env.
Variable self : attrs.
Variables model_id acceleration : string.
Variable t_index_list : list Z.
Variables lcm_lora_id vae_id : option string.
Variable warmup : Z.
Variables is_drawing use_lcm_lora use_tiny_vae : bool.

Let body := enable_acceleration E self model_id acceleration use_lcm_lora use_tiny_vae.
Let prepare_call := StreamPrepare "" 50 (Some (ManualSeed 2)).

(** [_load_model] is its first three steps followed by the [try]
    statement, [stream.prepare] and [return stream]. *)
Lemma load_model_after_entering h e0 s1 :
  entering_try E self model_id t_index_list lcm_lora_id vae_id
    is_drawing use_lcm_lora use_tiny_vae h tt = (e0, tt, inr s1) ->
  _load_model E self model_id t_index_list lcm_lora_id vae_id acceleration
    warmup is_drawing use_lcm_lora use_tiny_vae h tt
  = let o := (try_except body fallback ;; invoke E prepare_call ;; get) (h ++ e0) s1 in
    (e0 ++ events o, tt, outcome o).
Proof.
  intros H. unfold entering_try in H.
  apply bind_inr in H. destruct H as (e1 & [] & pipe & e2 & H1 & H & ->).
  apply bind_inr in H. destruct H as (e3 & [] & [] & e4 & H3 & H & ->).
  apply with_local_inv in H. destruct H as (s' & H & _).
  apply bind_inr in H. destruct H as (e5 & s5 & [] & e6 & H5 & H & ->).
  apply bind_inr in H. destruct H as (e7 & s7 & [] & e8 & H7 & H & ->).
  unfold get in H. inversion H; subst. clear H.
  unfold _load_model.
  unfold bind at 1. rewrite H1.
  unfold bind at 1. rewrite H3.
  unfold with_local.
  unfold bind at 1. rewrite H5.
  unfold bind at 1. rewrite H7.
  rewrite !app_nil_r. rewrite <- !app_assoc.
  fold body. fold prepare_call.
  destruct ((try_except body fallback;; invoke E prepare_call;; get)
              (h ++ e1 ++ e3 ++ e5 ++ e7) s1) as [[e v] r].
  cbv zeta. unfold events, outcome. simpl. rewrite <- ?app_assoc. reflexivity.
Qed.

(** C1 (amended): if the steps before the [try] statement complete and
    acceleration setup then raises an exception [x] that is an
    instance of [Exception], [_load_model] logs the traceback and the
    fallback message, goes on to call [stream.prepare], and returns
    the stream unless [stream.prepare] itself raises: [x] does not
    reach the caller. *)
Theorem acceleration_failure_is_caught h e0 s1 e1 s2 x :
  entering_try E self model_id t_index_list lcm_lora_id vae_id
    is_drawing use_lcm_lora use_tiny_vae h tt = (e0, tt, inr s1) ->
  body (h ++ e0) s1 = (e1, s2, inl x) ->
  exn_is_Exception x = true ->
  let logged := [EvPrintExc x; EvPrint fallback_message] in
  _load_model E self model_id t_index_list lcm_lora_id vae_id acceleration
    warmup is_drawing use_lcm_lora use_tiny_vae h tt
  = (e0 ++ e1 ++ logged ++ [EvCall prepare_call], tt,
     match raises E (h ++ e0 ++ e1 ++ logged) prepare_call with
     | Some y => inl y
     | None => inr s2
     end).
Proof.
  intros H0 H1 Hx. cbv zeta.
  rewrite (load_model_after_entering h e0 s1 H0).
  unfold bind at 1, try_except. rewrite H1, Hx.
  unfold fallback, bind, emit, invoke, get. cbn.
  rewrite <- !app_assoc. cbn.
  destruct (raises E _ prepare_call); cbn; rewrite ?app_nil_r;
    rewrite <- ?app_assoc; reflexivity.
Qed.

(** Whatever the [try] statement lets through is no instance of
    [Exception]. *)
Lemma try_lets_through_only_non_exceptions h s x :
  outcome (try_except body fallback h s) = inl x -> exn_is_Exception x = false.
Proof.
  unfold try_except, outcome.
  destruct (body h s) as [[e v] [y | []]]; simpl; [| discriminate].
  destruct (exn_is_Exception y) eqn:Hy; simpl.
  - discriminate.
  - intros H; inversion H; subst; exact Hy.
Qed.

(** The body of the [try] statement never prints the fallback message. *)
Lemma body_does_not_print_fallback :
  emits (fun e => e <> EvPrint fallback_message) body.
Proof.
  unfold body, enable_acceleration, enable_tensorrt, enable_sfast.
  emits_tac; try discriminate.
  intros h v. repeat constructor. discriminate.
Qed.

(** When the body raises before the VAE engine is constructed, and not
    inside stable-fast, [stream.unet] and [stream.vae] are untouched. *)
Lemma early_failure_keeps_modules h s ev s' x :
  body h s = (ev, s', inl x) ->
  (forall enc dec, ~ In (EvCall (NewKLEngine enc dec)) ev) ->
  (forall st, ~ In (EvCall (AccelerateSfast st)) ev) ->
  s_unet s' = s_unet s /\ vae_module (s_vae s') = vae_module (s_vae s).
Proof.
  unfold body, enable_acceleration.
  destruct (String.eqb_spec acceleration "xformers") as [-> | Hx]; unfold_run.
  - exec1; intros H; inversion H; subst; auto.
  - destruct (String.eqb_spec acceleration "tensorrt") as [-> | Ht]; unfold_run.
    + repeat exec1.
      all: intros H; inversion H; subst; clear H; cbn; intros HK HS; auto.
      all: exfalso; eapply HK; cbn; eauto 40.
    + destruct (String.eqb_spec acceleration "sfast") as [-> | Hs]; unfold_run.
      * repeat exec1; intros H; inversion H; subst; clear H; cbn; intros HK HS; auto.
        exfalso; eapply HS; cbn; eauto.
      * discriminate.
Qed.

(** Every failure point before line 355 keeps the modules: when the
    [except] branch is taken and the failure came before the
    [AutoencoderKLEngine] constructor was called, and not from inside
    [accelerate_with_stable_fast], [stream.unet] and [stream.vae] are
    the modules they were when the [try] block was entered. *)
Theorem fallback_keeps_modules_before_swap h s :
  let o := try_except body fallback h s in
  In (EvPrint fallback_message) (events o) ->
  (forall enc dec, ~ In (EvCall (NewKLEngine enc dec)) (events o)) ->
  (forall st, ~ In (EvCall (AccelerateSfast st)) (events o)) ->
  s_unet (state o) = s_unet s /\
  vae_module (s_vae (state o)) = vae_module (s_vae s).
Proof.
  cbv zeta. unfold try_except.
  pose proof (body_does_not_print_fallback h s) as NP.
  rewrite Forall_forall in NP.
  destruct (body h s) as [[e1 v1] [x | []]] eqn:Hb; unfold events, state in *;
    simpl in *.
  - destruct (exn_is_Exception x); simpl.
    + intros _ HK HS.
      apply (early_failure_keeps_modules h s e1 v1 x Hb).
      * intros enc dec Hin. apply (HK enc dec). apply in_or_app. now left.
      * intros st Hin. apply (HS st). apply in_or_app. now left.
    + intros Hin. exfalso. exact (NP _ Hin eq_refl).
  - intros Hin. exfalso. exact (NP _ Hin eq_refl).
Qed.

End Fallback.

(** ** Engine caching *)

(** Splits a concrete event list at the existence check of [p]. *)
Ltac split_at_exists p :=
  lazymatch goal with
  | |- exists found before after, ?L = _ /\ _ =>
      let rec go pre l :=
        lazymatch l with
        | EvExists p ?b :: ?tl =>
            let pre' := eval cbn in (rev pre) in
            exists b, pre', tl
        | ?x :: ?tl => go (x :: pre) tl
        end in
      go (@nil event) L
  end.

Ltac give_compile :=
  lazymatch goal with
  | |- exists mid c rest, (_ :: ?x1 :: EvCall ?c1 :: ?r) = _ /\ _ =>
      first [ exists [x1], c1, r; split; [reflexivity | split; [reflexivity |]]
            | lazymatch r with
              | EvCall ?c2 :: ?r2 =>
                  exists [x1; EvCall c1], c2, r2;
                  split; [reflexivity | split; [reflexivity |]]
              end ]
  end.

(** Names the constructor call that loads the engine file [p]. *)
Ltac give_loader :=
  lazymatch goal with
  | |- exists l, In (EvCall l) _ /\ In ?p (loads l) =>
      lazymatch p with
      | unet_path _ _ _ _ => exists (NewUNetEngine p)
      | vae_encoder_path ?a ?b ?c ?d =>
          exists (NewKLEngine p (vae_decoder_path a b c d))
      | vae_decoder_path ?a ?b ?c ?d =>
          exists (NewKLEngine (vae_encoder_path a b c d) p)
      end;
      split; solve [repeat (first [left; reflexivity | right])]
  end.

Section EngineCache.

Variable E : env.
Variable self : attrs.
Variable model_id : string.
Variables use_lcm_lora use_tiny_vae : bool.

Let unet := unet_path self model_id use_lcm_lora use_tiny_vae.
Let enc := vae_encoder_path self model_id use_lcm_lora use_tiny_vae.
Let dec := vae_decoder_path self model_id use_lcm_lora use_tiny_vae.

Lemma engine_paths_differ (p q : string) :
  (p = unet /\ q = dec) \/ (p = dec /\ q = unet) \/
  (p = unet /\ q = enc) \/ (p = enc /\ q = unet) \/
  (p = dec /\ q = enc) \/ (p = enc /\ q = dec) ->
  Some p <> Some q.
Proof.
  intros H Q. inversion Q as [Q']. clear Q.
  pose proof (unet_path_not_decoder self model_id use_lcm_lora use_tiny_vae).
  pose proof (unet_path_not_encoder self model_id use_lcm_lora use_tiny_vae).
  pose proof (decoder_path_not_encoder self model_id use_lcm_lora use_tiny_vae).
  unfold unet, dec, enc in H.
  destruct H as [[-> ->] | [[-> ->] | [[-> ->] | [[-> ->] | [[-> ->] | [-> ->]]]]]];
    congruence.
Qed.

(** C6: in a run of the TensorRT branch that completes, each of the
    three engine paths is checked for existence.  If the file is found,
    no compilation writes it, and the file on disk is what the engine
    constructor ([UNet2DConditionModelEngine] for the UNet path,
    [AutoencoderKLEngine] for the two VAE paths) is given after the
    check: the cached engine is reused.  If it is not found, the check
    is followed by [os.makedirs] on the containing directory, then by
    the compilation that writes the file, and then by the engine
    constructor that loads it. *)
Theorem engines_compiled_iff_missing h s ev s' :
  enable_tensorrt E self model_id use_lcm_lora use_tiny_vae h s = (ev, s', inr tt) ->
  forall p, In p [unet; dec; enc] ->
  exists found before after,
    ev = before ++ EvExists p found :: after /\
    found = path_exists E (h ++ before) p /\
    (found = true ->
       (forall c, In (EvCall c) ev -> compiles c <> Some p) /\
       exists l, In (EvCall l) after /\ In p (loads l)) /\
    (found = false ->
       exists mid c rest,
         after = EvCall (Makedirs (Py.dirname p)) :: mid ++ EvCall c :: rest /\
         compiles c = Some p /\
         exists l, In (EvCall l) rest /\ In p (loads l)).
Proof.
  unfold unet, dec, enc. unfold_run.
  repeat exec1.
  all: intros H; inversion H; subst; clear H.
  all: repeat match goal with
         | Hp : path_exists _ _ _ = _ |- _ =>
             rewrite <- !app_assoc in Hp; cbn in Hp
         end.
  all: intros path [<- | [<- | [<- | []]]].
  all: match goal with
       | |- exists found before after, _ = before ++ EvExists ?p found :: after /\ _ =>
           split_at_exists p
       end.
  all: (split; [reflexivity |]); (split; [symmetry; assumption |]).
  all: split; [| intros Hf; first [discriminate Hf | give_compile; give_loader]].
  all: intros Hf; try discriminate Hf.
  all: split; [| give_loader].
  all: intros c Hin; cbn in Hin;
    repeat (destruct Hin as [Hin | Hin];
            [inversion Hin; subst; cbn;
             first [discriminate | apply engine_paths_differ; unfold unet, dec, enc; tauto]
            |]);
    destruct Hin.
Qed.

End EngineCache.

(** ** The methods of a constructed wrapper *)

Lemma read_only_bind {V A B} (m : M V A) (k : A -> M V B) :
  read_only m -> (forall a, read_only (k a)) -> read_only (bind m k).
Proof.
  intros Hm Hk h v. unfold bind. specialize (Hm h v).
  destruct (m h v) as [[e1 v1] [x | a]]; unfold state in *; simpl in *; [exact Hm |].
  specialize (Hk a (h ++ e1) v1).
  destruct (k a (h ++ e1) v1) as [[e2 v2] r]; unfold state in *; simpl in *.
  congruence.
Qed.

Ltac read_only_tac :=
  repeat first
    [ apply read_only_bind; [| intros ?]
    | match goal with
      | |- read_only (if ?b then _ else _) => destruct b
      | |- read_only (match ?x with _ => _ end) => destruct x
      end
    | (intros ? ?; reflexivity) ].

Ltac exec2 :=
  match goal with
  | |- context [raises ?E ?h ?c] => destruct (raises E h c) eqn:?
  | |- context [num_images ?E ?h ?t] => destruct (num_images E h t) eqn:?
  end; cbn.

Section Methods.

Variable E : env.

Lemma prepare_read_only p n : read_only (prepare E p n).
Proof. unfold prepare. read_only_tac. Qed.

Lemma postprocess_image_read_only t : read_only (postprocess_image E t).
Proof. unfold postprocess_image. read_only_tac. Qed.

Lemma txt2img_read_only : read_only (txt2img E).
Proof.
  unfold txt2img. read_only_tac.
Qed.

Lemma preprocess_image_read_only i : read_only (preprocess_image E i).
Proof. unfold preprocess_image. read_only_tac. Qed.

Lemma img2img_read_only i : read_only (img2img E i).
Proof.
  unfold img2img. read_only_tac.
Qed.

Lemma call_read_only i : read_only (__call__ E i).
Proof.
  unfold __call__. read_only_tac.
Qed.

Lemma run_method_keeps_self m h w : snd (run_method E m h w) = w.
Proof.
  destruct m; simpl.
  - apply prepare_read_only.
  - apply call_read_only.
  - apply txt2img_read_only.
  - apply img2img_read_only.
  - apply preprocess_image_read_only.
  - apply postprocess_image_read_only.
Qed.

Lemma run_methods_keeps_self ms : forall h w, snd (run_methods E ms h w) = w.
Proof.
  induction ms as [| m ms IH]; intros h w; simpl; [reflexivity |].
  pose proof (run_method_keeps_self m h w) as Hm.
  destruct (run_method E m h w) as [e1 w1]. simpl in Hm. subst w1.
  specialize (IH (h ++ e1) w).
  destruct (run_methods E ms (h ++ e1) w) as [e2 w2]. exact IH.
Qed.

(** What [__init__] leaves in the attributes it set first. *)
Lemma init_attrs a h ev w :
  __init__ E a h tt = (ev, tt, inr w) ->
  self_attrs w
  = {| device := a_device a; dtype := a_dtype a; width := a_width a;
       height := a_height a; mode := a_mode a;
       frame_buffer_size := a_frame_buffer_size a;
       batch_size := Z.of_nat (length (a_t_index_list a)) * a_frame_buffer_size a |}.
Proof.
  unfold __init__. intros H.
  apply bind_inr in H. destruct H as (e1 & [] & stream & e2 & _ & H & ->).
  apply with_local_inv in H. destruct H as (w' & H & _).
  apply bind_inr in H. destruct H as (e3 & w3 & [] & e4 & H3 & H & ->).
  apply bind_inr in H. destruct H as (e5 & w5 & [] & e6 & H5 & H & ->).
  unfold get in H. inversion H; subst. clear H.
  assert (self_attrs w3 = self_attrs {| self_attrs :=
            {| device := a_device a; dtype := a_dtype a; width := a_width a;
               height := a_height a; mode := a_mode a;
               frame_buffer_size := a_frame_buffer_size a;
               batch_size := Z.of_nat (length (a_t_index_list a))
                             * a_frame_buffer_size a |};
            self_stream := stream |}) as H3'.
  { destruct (a_device_ids a).
    - apply bind_inr in H3. destruct H3 as (? & ? & ? & ? & G1 & H3 & _).
      unfold get in G1. inversion G1; subst. clear G1.
      apply bind_inr in H3. destruct H3 as (? & ? & ? & ? & G2 & H3 & _).
      unfold invoke in G2. inversion G2; subst. clear G2.
      unfold modify in H3. inversion H3; subst. reflexivity.
    - unfold ret in H3. inversion H3; subst. reflexivity. }
  assert (w = w3) as ->.
  { destruct (a_enable_similar_image_filter a); simpl in H5.
    - unfold invoke in H5. inversion H5; subst. reflexivity.
    - unfold ret in H5. inversion H5; subst. reflexivity. }
  exact H3'.
Qed.

(** C5: after construction [self.batch_size] is
    [len(t_index_list) * frame_buffer_size]; it still is after any
    sequence of wrapper methods; and with [frame_buffer_size > 1],
    [txt2img] opens with [stream.txt2img_batch] asked for exactly that
    many images, and asks for no other batch. *)
Theorem batch_size_bookkeeping a h ev w :
  __init__ E a h tt = (ev, tt, inr w) ->
  let n := Z.of_nat (length (a_t_index_list a)) * a_frame_buffer_size a in
  batch_size (self_attrs w) = n /\
  (forall ms h', batch_size (self_attrs (snd (run_methods E ms h' w))) = n) /\
  (1 < a_frame_buffer_size a ->
     forall ms h' h'',
       exists rest,
         events (txt2img E h'' (snd (run_methods E ms h' w)))
         = EvCall (StreamTxt2ImgBatch n) :: rest /\
         forall m, ~ In (EvCall (StreamTxt2ImgBatch m)) rest).
Proof.
  intros H. apply init_attrs in H. cbv zeta. split; [| split].
  - rewrite H. reflexivity.
  - intros ms h'. rewrite run_methods_keeps_self, H. reflexivity.
  - intros Hf ms h' h''. rewrite run_methods_keeps_self.
    apply Z.ltb_lt in Hf.
    destruct w as [attrs stream]. simpl in H. subst attrs.
    unfold txt2img, postprocess_image, events, bind, get, invoke, ask, ret. cbn.
    repeat (first [rewrite Hf | exec2]; cbn); eexists;
      (split; [reflexivity | intros m Hin; cbn in Hin; in_cases]).
Qed.

(** In mode "img2img" a call that returns, returns a pair. *)
Lemma call_img2img_returns_pair image h w r :
  mode (self_attrs w) = "img2img" ->
  outcome (__call__ E image h w) = inr r ->
  exists i p, r = RetTuple i p.
Proof.
  intros Hm. unfold __call__, outcome. unfold bind at 1, get. simpl.
  rewrite Hm. simpl.
  destruct (bind _ _ (h ++ []) w) as [[e v] [x | y]] eqn:Hb; simpl; [discriminate |].
  apply bind_inr in Hb. destruct Hb as (? & ? & ? & ? & _ & Hr & _).
  unfold ret in Hr. inversion Hr; subst. intros Q; inversion Q. eauto.
Qed.

(** In any other mode a call that returns, returns the images alone:
    one image for [frame_buffer_size <= 1], a list beyond that. *)
Lemma call_txt2img_returns_images image h w r :
  mode (self_attrs w) <> "img2img" ->
  outcome (__call__ E image h w) = inr r ->
  if 1 <? frame_buffer_size (self_attrs w)
  then exists l, r = RetImages (ImageList l)
  else exists im, r = RetImages (OneImage im).
Proof.
  intros Hm. apply String.eqb_neq in Hm.
  unfold __call__, txt2img, postprocess_image, outcome,
    bind, get, invoke, ask, ret, raise. cbn.
  rewrite Hm.
  destruct (1 <? frame_buffer_size (self_attrs w)) eqn:Hf; cbn;
    repeat (first [rewrite Hf | exec2]; cbn); intros Q; inversion Q; eauto.
Qed.

(** C2, at the failing input: in mode "img2img" with
    [frame_buffer_size = 1], [__call__] on a tensor returns the pair
    of the image and the skip probability, not the image alone. *)
Theorem call_img2img_returns_image_and_skip_prob :
  outcome (__call__ (sample_env no_call RuntimeError true 1)
             (ArgTensor (UserTensor 0)) [] (sample_wrapper "img2img" 1))
  = inr (RetTuple
           (OneImage (Postprocessed (OnCpu (StreamOut (ArgTensor (UserTensor 0)))) 0))
           (SkipProb (ArgTensor (UserTensor 0)))).
Proof. reflexivity. Qed.

End Methods.

(** ** What [img2img] hands to the stream *)

Section Img2img.

Variable E : env.


End Img2img.

(** ** Concrete runs *)

(** Membership in a concrete list. *)
Ltac in_list := repeat (first [left; reflexivity | right]).

(** C1 as stated fails: a [KeyboardInterrupt] raised while the UNet
    engine is compiled is no instance of [Exception]; it passes the
    [except Exception] clause, reaches the caller, and neither the
    fallback message nor [stream.prepare] follows. *)
Lemma keyboard_interrupt_is_not_caught :
  let o := _load_model (sample_env is_compile_unet KeyboardInterrupt false 1)
             (sample_self "img2img" 1) "KBlueLeaf/kohaku-v2.1" [0; 16; 32; 45]
             None None "tensorrt" 10 true true true [] tt in
  outcome o = inl KeyboardInterrupt /\
  ~ In (EvPrint fallback_message) (events o) /\
  ~ In (EvCall (StreamPrepare "" 50 (Some (ManualSeed 2)))) (events o).
Proof.
  vm_compute. split; [reflexivity |].
  split; intros H; repeat (destruct H as [H | H]; [discriminate H |]); exact H.
Qed.

(** A [RuntimeError] from [compile_unet]: caught, and the stream is returned. *)
Lemma acceleration_failure_is_caught_witness :
  exists s,
    outcome (_load_model (sample_env is_compile_unet RuntimeError false 1)
               (sample_self "img2img" 1) "KBlueLeaf/kohaku-v2.1" [0; 16; 32; 45]
               None None "tensorrt" 10 true true true [] tt)
    = inr s.
Proof.
  eassert (H0 : entering_try (sample_env is_compile_unet RuntimeError false 1)
                  (sample_self "img2img" 1) "KBlueLeaf/kohaku-v2.1" [0; 16; 32; 45]
                  None None true true true [] tt = (_, tt, inr _))
    by (vm_compute; reflexivity).
  eassert (H1 : enable_acceleration (sample_env is_compile_unet RuntimeError false 1)
                  (sample_self "img2img" 1) "KBlueLeaf/kohaku-v2.1" "tensorrt"
                  true true ([] ++ _) _ = (_, _, inl RuntimeError))
    by (vm_compute; reflexivity).
  rewrite (acceleration_failure_is_caught _ _ _ _ _ _ _ 10 _ _ _ _ _ _ _ _ _
             H0 H1 eq_refl).
  eexists. vm_compute. reflexivity.
Defined.

(** C3: a run that takes the [except] branch with a module changed.
    All three engines are cached and the [AutoencoderKLEngine]
    constructor (line 355) raises [RuntimeError].  The handler prints
    "Falling back to normal mode." and the [try] statement ends
    normally, but line 354 has already assigned [stream.unet]: it was
    the torch UNet when the [try] block was entered and is the
    TensorRT engine now, next to the [stream.vae] of before. *)
Lemma failed_vae_engine_leaves_unet_engine :
  let self := sample_self "img2img" 1 in
  let s := sample_stream "img2img" 1 in
  let o := try_except
             (enable_acceleration (sample_env is_new_kl_engine RuntimeError true 1)
                self "KBlueLeaf/kohaku-v2.1" "tensorrt" true true)
             fallback [] s in
  outcome o = inr tt /\
  In (EvPrint fallback_message) (events o) /\
  s_unet s = TorchUNet sample_pipe /\
  s_unet (state o) = UNetEngine (unet_path self "KBlueLeaf/kohaku-v2.1" true true) /\
  s_unet (state o) <> s_unet s /\
  s_vae (state o) = s_vae s.
Proof.
  vm_compute. repeat split; try reflexivity.
  - in_list.
  - discriminate.
Qed.

(** A failed decoder export leaves the [forward] attribute it installed
    on the VAE: the handler does not delete it. *)
Example failed_decoder_export_leaves_forward :
  let s := sample_stream "img2img" 1 in
  let o := try_except
             (enable_acceleration
                (sample_env (fun c => match c with
                                      | CompileVaeDecoder _ _ _ _ _ => true
                                      | _ => false
                                      end) RuntimeError false 1)
                (sample_self "img2img" 1) "KBlueLeaf/kohaku-v2.1" "tensorrt" true true)
             fallback [] s in
  outcome o = inr tt /\
  vae_forward (s_vae s) = false /\
  vae_forward (s_vae (state o)) = true /\
  vae_module (s_vae (state o)) = vae_module (s_vae s).
Proof. vm_compute. repeat split; reflexivity. Qed.

(** A [RuntimeError] from [compile_unet] leaves both modules in place. *)
Lemma fallback_keeps_modules_before_swap_witness :
  let s := sample_stream "img2img" 1 in
  let o := try_except
             (enable_acceleration (sample_env is_compile_unet RuntimeError false 1)
                (sample_self "img2img" 1) "KBlueLeaf/kohaku-v2.1" "tensorrt" true true)
             fallback [] s in
  s_unet (state o) = TorchUNet sample_pipe /\
  vae_module (s_vae (state o)) = TorchVAE sample_pipe.
Proof.
  apply (fallback_keeps_modules_before_swap
           (sample_env is_compile_unet RuntimeError false 1)
           (sample_self "img2img" 1) "KBlueLeaf/kohaku-v2.1" "tensorrt" true true
           [] (sample_stream "img2img" 1)).
  - vm_compute. in_list.
  - intros enc dec. vm_compute. intros H.
    repeat (destruct H as [H | H]; [discriminate H |]). exact H.
  - intros st. vm_compute. intros H.
    repeat (destruct H as [H | H]; [discriminate H |]). exact H.
Defined.


(** Four step indices and a frame buffer of three: twelve images per batch. *)
Lemma batch_size_bookkeeping_witness :
  exists w,
    outcome (__init__ (sample_env no_call RuntimeError true 3)
               (sample_args "txt2img" "none" 3) [] tt) = inr w /\
    batch_size (self_attrs w) = 12 /\
    exists rest,
      events (txt2img (sample_env no_call RuntimeError true 3) [] w)
      = EvCall (StreamTxt2ImgBatch 12) :: rest.
Proof.
  eassert (H : __init__ (sample_env no_call RuntimeError true 3)
                 (sample_args "txt2img" "none" 3) [] tt = (_, tt, inr _))
    by (vm_compute; reflexivity).
  destruct (batch_size_bookkeeping _ _ _ _ _ H) as (H1 & _ & H3).
  eexists. split; [rewrite H; reflexivity |]. split; [exact H1 |].
  destruct (H3 eq_refl [] [] []) as (rest & Hr & _). exists rest. exact Hr.
Defined.

(** With no engine cached the UNet path is checked and found missing;
    the check is followed by a compilation that writes the file and by
    the engine constructor that loads it. *)
Lemma engines_compiled_iff_missing_witness :
  let E := sample_env no_call RuntimeError false 1 in
  let self := sample_self "img2img" 1 in
  let p := unet_path self "KBlueLeaf/kohaku-v2.1" true true in
  exists found before after,
    events (enable_tensorrt E self "KBlueLeaf/kohaku-v2.1" true true []
              (sample_stream "img2img" 1))
    = before ++ EvExists p found :: after /\
    found = false /\
    exists c l,
      In (EvCall c) after /\ compiles c = Some p /\
      In (EvCall l) after /\ In p (loads l).
Proof.
  cbv zeta.
  eassert (H : enable_tensorrt (sample_env no_call RuntimeError false 1)
                 (sample_self "img2img" 1) "KBlueLeaf/kohaku-v2.1" true true []
                 (sample_stream "img2img" 1) = (_, _, inr tt))
    by (vm_compute; reflexivity).
  destruct (engines_compiled_iff_missing _ _ _ _ _ _ _ _ _ H
              (unet_path (sample_self "img2img" 1) "KBlueLeaf/kohaku-v2.1" true true)
              (or_introl eq_refl))
    as (found & before & after & Hsplit & Hfound & _ & Hmiss).
  assert (Hf : found = false) by (rewrite Hfound; reflexivity).
  destruct (Hmiss Hf) as (mid & c & rest & -> & Hc & l & Hl & Hp).
  exists found, before. eexists. split; [rewrite H; exact Hsplit |].
  split; [exact Hf |]. exists c, l.
  split; [right; apply in_or_app; right; left; reflexivity |].
  split; [exact Hc |].
  split; [right; apply in_or_app; right; right; exact Hl | exact Hp].
Defined.

(** The encoder path in each mode, for a batch size of eight. *)
Lemma engine_paths_from_configuration_witness :
  vae_encoder_path (sample_self "img2img" 2) "KBlueLeaf/kohaku-v2.1" true false
  = "engines/KBlueLeaf/kohaku-v2.1--lcm_lora-False--tiny_vae-True--max_batch-1--min_batch-1--mode-img2img/vae_encoder.engine"
  /\
  vae_encoder_path (sample_self "txt2img" 2) "KBlueLeaf/kohaku-v2.1" true false
  = "engines/KBlueLeaf/kohaku-v2.1--lcm_lora-False--tiny_vae-True--max_batch-8--min_batch-8--mode-txt2img/vae_encoder.engine".
Proof.
  split.
  - destruct (engine_paths_from_configuration (sample_self "img2img" 2)
                "KBlueLeaf/kohaku-v2.1" true false) as (_ & _ & H & _).
    destruct (H eq_refl) as [-> _]. reflexivity.
  - destruct (engine_paths_from_configuration (sample_self "txt2img" 2)
                "KBlueLeaf/kohaku-v2.1" true false) as (_ & H & _ & _).
    destruct (H eq_refl) as [-> _]. reflexivity.
Defined.

(** The adapter is fused for a plain model id and skipped for a turbo one. *)
Lemma lcm_lora_fused_iff_witness :
  let E := sample_env no_call RuntimeError true 1 in
  let self := sample_self "img2img" 1 in
  let id := Some "latent-consistency/lcm-lora-sdv1-5" in
  let plain := _load_model E self "KBlueLeaf/kohaku-v2.1" [0; 16; 32; 45]
                 id None "none" 10 true true true [] tt in
  let turbo := _load_model E self "stabilityai/sd-turbo" [0; 16; 32; 45]
                 id None "none" 10 true true true [] tt in
  (In (EvCall (LoadLcmLora id)) (events plain) /\
   In (EvCall FuseLora) (events plain)) /\
  ~ In (EvCall FuseLora) (events turbo).
Proof.
  cbv zeta. split.
  - destruct (lcm_lora_fused_iff (sample_env no_call RuntimeError true 1)
                (sample_self "img2img" 1) "KBlueLeaf/kohaku-v2.1" "none"
                [0; 16; 32; 45] (Some "latent-consistency/lcm-lora-sdv1-5") None 10
                true true true []) as (_ & H & _).
    eapply H; vm_compute; reflexivity.
  - destruct (lcm_lora_fused_iff (sample_env no_call RuntimeError true 1)
                (sample_self "img2img" 1) "stabilityai/sd-turbo" "none"
                [0; 16; 32; 45] (Some "latent-consistency/lcm-lora-sdv1-5") None 10
                true true true []) as (_ & _ & H).
    exact (proj2 (H eq_refl None)).
Defined.


(** ** Around the [try] statement *)

(** As [emits_bind], knowing something of what the first part returns. *)
Lemma emits_bind_returning {V A B} (P : event -> Prop) (Q : A -> Prop)
    (m : M V A) (k : A -> M V B) :
  emits P m ->
  (forall h v a, outcome (m h v) = inr a -> Q a) ->
  (forall a, Q a -> emits P (k a)) ->
  emits P (bind m k).
Proof.
  intros Hm HQ Hk h v. unfold bind.
  specialize (Hm h v). specialize (HQ h v).
  destruct (m h v) as [[e1 v1] [x | a]]; unfold events, outcome in *; simpl in *;
    [exact Hm |].
  specialize (Hk a (HQ a eq_refl) (h ++ e1) v1).
  destruct (k a (h ++ e1) v1) as [[e2 v2] r]; unfold events in *; simpl in *.
  apply Forall_app; split; assumption.
Qed.

Section AroundTheTry.

Variable E : env.
Variable self : attrs.
Variables model_id acceleration : string.
Variable t_index_list : list Z.
Variables lcm_lora_id vae_id : option string.
Variable warmup : Z.
Variables is_drawing use_lcm_lora use_tiny_vae : bool.

Let body := enable_acceleration E self model_id acceleration use_lcm_lora use_tiny_vae.
Let prepare_call := StreamPrepare "" 50 (Some (ManualSeed 2)).

(** A failure in the first three steps is the failure of [_load_model]. *)
Lemma load_model_fails_before_try h e0 x :
entering_try E self model_id t_index_list lcm_lora_id vae_id
  is_drawing use_lcm_lora use_tiny_vae h tt = (e0, tt, inl x) ->
_load_model E self model_id t_index_list lcm_lora_id vae_id acceleration
  warmup is_drawing use_lcm_lora use_tiny_vae h tt = (e0, tt, inl x).
Proof.
unfold entering_try, _load_model, bind, with_local.
destruct (load_pipe E self model_id h tt) as [[e1 []] [y | pipe]];
  cbv beta iota; [auto |].
destruct (invoke E _ (h ++ e1) tt) as [[e2 []] [y | []]]; cbv beta iota; [auto |].
destruct (load_lcm_lora E model_id lcm_lora_id use_lcm_lora _ _)
  as [[e3 s3] [y | []]]; cbv beta iota; [auto |].
destruct (load_tiny_vae E pipe vae_id use_tiny_vae _ _)
  as [[e4 s4] [y | []]]; cbv beta iota; [auto |].
unfold get. intros H. inversion H.
Qed.

(** X5: once the first three steps are done, [_load_model] runs the
  [try] statement, then [stream.prepare], and nothing else.  If the
  [try] statement completes (with or without fallback), an exception
  from [stream.prepare] reaches the caller uncaught, and otherwise
  the stream returned is the one the [try] statement left.  An
  instance of [Exception] that comes out of [_load_model] was raised
  by [stream.prepare], as the last call made. *)
Theorem after_the_try_statement h e0 s1 :
entering_try E self model_id t_index_list lcm_lora_id vae_id
  is_drawing use_lcm_lora use_tiny_vae h tt = (e0, tt, inr s1) ->
let run := _load_model E self model_id t_index_list lcm_lora_id vae_id
             acceleration warmup is_drawing use_lcm_lora use_tiny_vae h tt in
(forall e1 s2,
   try_except body fallback (h ++ e0) s1 = (e1, s2, inr tt) ->
   run = (e0 ++ e1 ++ [EvCall prepare_call], tt,
          match raises E (h ++ e0 ++ e1) prepare_call with
          | Some y => inl y
          | None => inr s2
          end)) /\
(forall x,
   outcome run = inl x -> exn_is_Exception x = true ->
   exists e1,
     events run = e0 ++ e1 ++ [EvCall prepare_call] /\
     raises E (h ++ e0 ++ e1) prepare_call = Some x).
Proof.
intros H0. cbv zeta.
assert (B : forall e1 s2,
          try_except body fallback (h ++ e0) s1 = (e1, s2, inr tt) ->
          _load_model E self model_id t_index_list lcm_lora_id vae_id
            acceleration warmup is_drawing use_lcm_lora use_tiny_vae h tt
          = (e0 ++ e1 ++ [EvCall prepare_call], tt,
             match raises E (h ++ e0 ++ e1) prepare_call with
             | Some y => inl y
             | None => inr s2
             end)).
{ intros e1 s2 H1.
  rewrite (load_model_after_entering E self model_id acceleration t_index_list
             lcm_lora_id vae_id warmup is_drawing use_lcm_lora use_tiny_vae
             h e0 s1 H0).
  unfold bind at 1. fold body. rewrite H1.
  unfold bind, invoke, get, events, outcome, prepare_call. cbn.
  rewrite <- !app_assoc.
  destruct (raises E (h ++ e0 ++ e1) _); cbn; rewrite ?app_nil_r; reflexivity. }
split; [exact B |].
intros x.
pose proof (try_lets_through_only_non_exceptions E self model_id acceleration
              use_lcm_lora use_tiny_vae (h ++ e0) s1) as T.
fold body in T. unfold outcome in T.
destruct (try_except body fallback (h ++ e0) s1) as [[e1 s2] [y | []]] eqn:H1.
- rewrite (load_model_after_entering E self model_id acceleration t_index_list
             lcm_lora_id vae_id warmup is_drawing use_lcm_lora use_tiny_vae
             h e0 s1 H0).
  unfold bind at 1. fold body. rewrite H1. unfold outcome. cbn.
  intros Q Hx. inversion Q; subst. specialize (T x eq_refl). congruence.
- rewrite (B e1 s2 eq_refl). unfold outcome, events. cbn.
  destruct (raises E (h ++ e0 ++ e1) prepare_call) as [y |] eqn:R;
    intros Q Hx; inversion Q; subst. exists e1. auto.
Qed.

(** X6: the stream as the [try] statement finds it: built on the
  pipeline loaded from [model_id], with the pipeline's own UNet, and
  with the tiny VAE in place of the pipeline's VAE exactly when
  [use_tiny_vae] holds; [vae_id] names the tiny VAE, "madebyollin/taesd"
  when it is [None], and is ignored when [use_tiny_vae] is false. *)
Theorem stream_entering_try h e0 s1 :
entering_try E self model_id t_index_list lcm_lora_id vae_id
  is_drawing use_lcm_lora use_tiny_vae h tt = (e0, tt, inr s1) ->
let pipe := loaded_pipe self model_id in
s1 = set_vae
       (fresh_vae
          (if use_tiny_vae
           then TinyVAE (match vae_id with
                         | Some id => id
                         | None => "madebyollin/taesd"
                         end) pipe
           else TorchVAE pipe))
       (new_stream self pipe t_index_list is_drawing).
Proof.
clear body prepare_call.
unfold entering_try, loaded_pipe, load_pipe, load_lcm_lora, load_tiny_vae,
  with_local, bind, when, invoke, modify, get, ret.
destruct (Py.endswith model_id ".safetensors"),
  (Py.contains "turbo" model_id), use_lcm_lora, lcm_lora_id,
  use_tiny_vae, vae_id; cbn;
  repeat exec1; intros H; inversion H; reflexivity.
Qed.

(** Every loading call carries the wrapper's own configuration. *)
Lemma load_model_calls_configured :
emits (loads_as_configured self model_id t_index_list is_drawing)
  (_load_model E self model_id t_index_list lcm_lora_id vae_id
     acceleration warmup is_drawing use_lcm_lora use_tiny_vae).
Proof.
clear body prepare_call.
unfold _load_model.
apply (emits_bind_returning _ (fun pipe => pipe = loaded_pipe self model_id)).
- unfold load_pipe. destruct (Py.endswith model_id ".safetensors") eqn:S;
    emits_tac; simpl; auto.
- intros h v a. unfold load_pipe, loaded_pipe, outcome, bind, invoke, ret.
  destruct (Py.endswith model_id ".safetensors"); cbn;
    repeat exec1; intros Q; inversion Q; reflexivity.
- intros pipe ->.
  unfold load_lcm_lora, load_tiny_vae, enable_acceleration, enable_tensorrt,
    enable_sfast, fallback.
  emits_tac; simpl; auto 10.
  intros h v. repeat constructor.
Qed.

(** The first three calls of [_load_model], whatever follows them: each
  is made unless the one before it raised. *)
Lemma opening_calls {B} (K : pipe_obj -> M unit B) h :
let load := if Py.endswith model_id ".safetensors"
            then FromSingleFile model_id else FromPretrained model_id in
let move := PipeTo (device self) (dtype self) in
let build := NewStreamDiffusion (loaded_pipe self model_id) t_index_list
               (dtype self) (width self) (height self) is_drawing
               (frame_buffer_size self) in
(pipe <- load_pipe E self model_id ;;
 invoke E (NewStreamDiffusion pipe t_index_list (dtype self) (width self)
             (height self) is_drawing (frame_buffer_size self)) ;;
 K pipe) h tt
= match raises E h load with
  | Some x => ([EvCall load], tt, inl x)
  | None =>
      match raises E (h ++ [EvCall load]) move with
      | Some x => ([EvCall load; EvCall move], tt, inl x)
      | None =>
          match raises E (h ++ [EvCall load; EvCall move]) build with
          | Some x => ([EvCall load; EvCall move; EvCall build], tt, inl x)
          | None =>
              let o := K (loaded_pipe self model_id)
                         (h ++ [EvCall load; EvCall move; EvCall build]) tt in
              ([EvCall load; EvCall move; EvCall build] ++ events o,
               state o, outcome o)
          end
      end
  end.
Proof.
clear body prepare_call.
cbv zeta. unfold load_pipe, loaded_pipe, bind, invoke, ret, events, state, outcome.
destruct (Py.endswith model_id ".safetensors").
all: destruct (raises E h _); [reflexivity |].
all: destruct (raises E (h ++ [_]) _); [reflexivity |].
all: cbn [app]; rewrite <- ?app_assoc; cbn [app].
all: destruct (raises E (h ++ [_; _]) _); [reflexivity |].
all: rewrite <- ?app_assoc; cbn [app].
all: destruct (K _ _ tt) as [[e []] r]; reflexivity.
Qed.

(** Once the stream is built, nothing loads a pipeline or builds a
  stream again. *)
Lemma after_the_stream_is_built pipe :
emits (fun e => builds_pipeline e = false)
  (@with_local unit _ _ (new_stream self pipe t_index_list is_drawing)
     (load_lcm_lora E model_id lcm_lora_id use_lcm_lora ;;
      load_tiny_vae E pipe vae_id use_tiny_vae ;;
      try_except
        (enable_acceleration E self model_id acceleration use_lcm_lora use_tiny_vae)
        fallback ;;
      invoke E (StreamPrepare "" 50 (Some (ManualSeed 2))) ;;
      get)).
Proof.
clear body prepare_call.
unfold load_lcm_lora, load_tiny_vae, enable_acceleration, enable_tensorrt,
  enable_sfast, fallback.
emits_tac; simpl; auto.
intros h v. repeat constructor.
Qed.

(** X7: [_load_model] opens with [from_single_file(model_id)] when
  [model_id] ends in ".safetensors" and with [from_pretrained(model_id)]
  otherwise; unless that call raises, the pipeline is next moved with
  [.to(self.device, self.dtype)]; unless that raises, [StreamDiffusion]
  is next built on that pipeline with [t_index_list], [self.dtype],
  [self.width], [self.height], [is_drawing] and
  [self.frame_buffer_size].  A [_load_model] that returns has made
  these three calls, in this order, and none of their kind after
  them; and any loading call of a run, returning or not, carries
  these arguments. *)
Theorem loading_calls_as_configured h :
let o := _load_model E self model_id t_index_list lcm_lora_id vae_id
           acceleration warmup is_drawing use_lcm_lora use_tiny_vae h tt in
let load := if Py.endswith model_id ".safetensors"
            then FromSingleFile model_id else FromPretrained model_id in
let move := PipeTo (device self) (dtype self) in
let build := NewStreamDiffusion (loaded_pipe self model_id) t_index_list
               (dtype self) (width self) (height self) is_drawing
               (frame_buffer_size self) in
Forall (loads_as_configured self model_id t_index_list is_drawing) (events o) /\
(exists rest, events o = EvCall load :: rest) /\
(raises E h load = None ->
 exists rest, events o = EvCall load :: EvCall move :: rest) /\
(raises E h load = None -> raises E (h ++ [EvCall load]) move = None ->
 exists rest, events o = EvCall load :: EvCall move :: EvCall build :: rest) /\
(forall s, outcome o = inr s ->
 exists rest,
   events o = EvCall load :: EvCall move :: EvCall build :: rest /\
   Forall (fun e => builds_pipeline e = false) rest).
Proof.
clear body prepare_call.
cbv zeta. split; [apply load_model_calls_configured |].
unfold _load_model. rewrite opening_calls. cbv zeta.
destruct (raises E h _) as [x |].
{ unfold events, outcome; simpl.
  repeat split; eauto; discriminate. }
destruct (raises E (h ++ [_]) _) as [x |].
{ unfold events, outcome; simpl.
  repeat split; eauto; discriminate. }
destruct (raises E (h ++ [_; _]) _) as [x |].
{ unfold events, outcome; simpl.
  repeat split; eauto; discriminate. }
pose proof (after_the_stream_is_built (loaded_pipe self model_id)
              (h ++ [EvCall (if Py.endswith model_id ".safetensors"
                             then FromSingleFile model_id
                             else FromPretrained model_id);
                     EvCall (PipeTo (device self) (dtype self));
                     EvCall (NewStreamDiffusion (loaded_pipe self model_id)
                               t_index_list (dtype self) (width self)
                               (height self) is_drawing
                               (frame_buffer_size self))]) tt) as R.
unfold events, outcome in *; simpl.
repeat split; eauto.
Qed.

(** X19: if the first three steps complete and acceleration setup
  then raises something that is no instance of [Exception] (a
  [KeyboardInterrupt] while an engine is built, a [SystemExit]), the
  [except Exception] clause lets it through: [_load_model] ends with
  that exception right after the call that raised it, with nothing
  logged and [stream.prepare] not called. *)
Theorem non_exception_escapes_the_try h e0 s1 e1 s2 x :
entering_try E self model_id t_index_list lcm_lora_id vae_id
  is_drawing use_lcm_lora use_tiny_vae h tt = (e0, tt, inr s1) ->
body (h ++ e0) s1 = (e1, s2, inl x) ->
exn_is_Exception x = false ->
_load_model E self model_id t_index_list lcm_lora_id vae_id acceleration
  warmup is_drawing use_lcm_lora use_tiny_vae h tt
= (e0 ++ e1, tt, inl x).
Proof.
intros H0 H1 Hx.
rewrite (load_model_after_entering E self model_id acceleration t_index_list
           lcm_lora_id vae_id warmup is_drawing use_lcm_lora use_tiny_vae
           h e0 s1 H0).
unfold bind at 1, try_except. fold body. rewrite H1, Hx. reflexivity.
Qed.

End AroundTheTry.

(** ** The acceleration branches *)

Lemma in_events_bind_l {V A B} (m : M V A) (k : A -> M V B) h v e :
  In e (events (m h v)) -> In e (events (bind m k h v)).
Proof.
  unfold bind, events. destruct (m h v) as [[e1 v1] [x | a]]; simpl; [auto |].
  destruct (k a (h ++ e1) v1) as [[e2 v2] r]; simpl. intros H.
  apply in_or_app. now left.
Qed.

Lemma events_ret_bind {V A B} (a : A) (k : A -> M V B) h v :
  events (bind (ret a) k h v) = events (k a (h ++ []) v).
Proof.
  unfold bind, ret, events. destruct (k a (h ++ []) v) as [[e v'] r]. reflexivity.
Qed.

Section Branches.

Variable E : env.
Variable self : attrs.
Variables model_id acceleration : string.
Variables use_lcm_lora use_tiny_vae : bool.

Let body := enable_acceleration E self model_id acceleration use_lcm_lora use_tiny_vae.
Let unet := unet_path self model_id use_lcm_lora use_tiny_vae.
Let enc := vae_encoder_path self model_id use_lcm_lora use_tiny_vae.
Let dec := vae_decoder_path self model_id use_lcm_lora use_tiny_vae.

(** X8: the acceleration string selects the branch by exact match:
  xformers is enabled only for "xformers", the TensorRT package is
  imported only for "tensorrt", stable-fast only for "sfast", and
  each of them is attempted for its name; for any other string
  ("none", or a misspelt name) the [try] body does nothing at all. *)
Theorem acceleration_branch_by_name (h : list event) (s : stream_obj) :
(In (EvCall EnableXformers) (events (body h s)) <-> acceleration = "xformers") /\
(In (EvCall (Import "streamdiffusion.acceleration.tensorrt")) (events (body h s))
 <-> acceleration = "tensorrt") /\
(In (EvCall (Import "streamdiffusion.acceleration.sfast")) (events (body h s))
 <-> acceleration = "sfast") /\
(acceleration <> "xformers" -> acceleration <> "tensorrt" ->
 acceleration <> "sfast" -> body h s = ([], s, inr tt)).
Proof.
assert (never : forall c,
          (c = EnableXformers -> acceleration <> "xformers") ->
          (c = Import "streamdiffusion.acceleration.tensorrt" ->
           acceleration <> "tensorrt") ->
          (c = Import "streamdiffusion.acceleration.sfast" ->
           acceleration <> "sfast") ->
          (c = EnableXformers \/
           c = Import "streamdiffusion.acceleration.tensorrt" \/
           c = Import "streamdiffusion.acceleration.sfast") ->
          ~ In (EvCall c) (events (body h s))).
{ intros c Nx Nt Ns Hc Hin.
  assert (G : emits (fun e => e <> EvCall c) body).
  { unfold body, enable_acceleration, enable_tensorrt, enable_sfast.
    destruct (String.eqb_spec acceleration "xformers") as [Ax | Ax];
      destruct (String.eqb_spec acceleration "tensorrt") as [At | At];
      destruct (String.eqb_spec acceleration "sfast") as [As | As];
      try congruence; simpl when;
      emits_tac; try (intros Q; inversion Q; subst c);
      try (intros hh vv; repeat constructor; intros Q; inversion Q; subst c);
      try solve [destruct Hc as [Hc | [Hc | Hc]]; discriminate Hc];
      try solve [apply Nx; congruence | apply Nt; congruence | apply Ns; congruence];
      try solve [exfalso; auto]. }
  specialize (G h s). rewrite Forall_forall in G. exact (G _ Hin eq_refl). }
unfold body in *. unfold enable_acceleration in *.
destruct (String.eqb_spec acceleration "xformers") as [Ax | Ax];
  destruct (String.eqb_spec acceleration "tensorrt") as [At | At];
  destruct (String.eqb_spec acceleration "sfast") as [As | As];
  try congruence; simpl when in *.
- (* xformers *)
  repeat split; try congruence; try (intros _; apply in_events_bind_l; left; reflexivity);
    intros Hin; exfalso; revert Hin; apply never; intros; try congruence; auto.
- (* tensorrt *)
  repeat split; try congruence;
    try (intros Hin; exfalso; revert Hin; apply never; intros; try congruence; auto).
  intros _. rewrite events_ret_bind. apply in_events_bind_l.
  unfold enable_tensorrt. apply in_events_bind_l. left. reflexivity.
- (* sfast *)
  repeat split; try congruence;
    try (intros Hin; exfalso; revert Hin; apply never; intros; try congruence; auto).
  intros _. rewrite !events_ret_bind.
  unfold enable_sfast. apply in_events_bind_l. left. reflexivity.
- (* none of the three *)
  repeat split; try congruence;
    try (intros Hin; exfalso; revert Hin; apply never; intros; try congruence; auto).
Qed.

End Branches.

Section TensorRTStates.

Variable E : env.
Variable self : attrs.
Variables model_id acceleration : string.
Variables use_lcm_lora use_tiny_vae : bool.

Let body := enable_acceleration E self model_id acceleration use_lcm_lora use_tiny_vae.
Let unet := unet_path self model_id use_lcm_lora use_tiny_vae.
Let enc := vae_encoder_path self model_id use_lcm_lora use_tiny_vae.
Let dec := vae_decoder_path self model_id use_lcm_lora use_tiny_vae.

(** X9: when the TensorRT branch completes, [stream.unet] is the
  engine loaded from the UNet path and [stream.vae] the engine pair
  loaded from the encoder and decoder paths, carrying the [config]
  and [dtype] of the VAE it replaces and no [forward] attribute;
  nothing else of the stream has changed; both engines are loaded
  whether their files were cached or just compiled; and the last
  thing done is to print that acceleration is enabled. *)
Theorem tensorrt_success_state h s ev s' :
vae_forward (s_vae s) = false ->
enable_tensorrt E self model_id use_lcm_lora use_tiny_vae h s = (ev, s', inr tt) ->
s' = tensorrt_stream unet enc dec s /\
In (EvCall (NewUNetEngine unet)) ev /\
In (EvCall (NewKLEngine enc dec)) ev /\
last ev (EvPrint "") = EvPrint "TensorRT acceleration enabled.".
Proof.
unfold unet, enc, dec.
destruct s as [sp stl sd sw sh sdr sf su [vm vf vc vd]]. cbn. intros ->.
unfold_run. repeat exec1.
all: intros H; inversion H; subst; clear H.
all: repeat split; try reflexivity; cbn; auto 30.
Qed.

(** X10: a warm start: when all three engine files are found, a
  completed TensorRT branch makes no directory, builds no model and
  compiles nothing; it imports, checks the UNet, the decoder and the
  encoder path in this order, opens a CUDA stream, loads the two
  engines and frees memory. *)
Theorem tensorrt_warm_start h s ev s' :
enable_tensorrt E self model_id use_lcm_lora use_tiny_vae h s = (ev, s', inr tt) ->
(forall p found, In (EvExists p found) ev -> found = true) ->
ev = [EvCall (Import "streamdiffusion.acceleration.tensorrt");
      EvCall (Import "streamdiffusion.acceleration.tensorrt.engine");
      EvCall (Import "streamdiffusion.acceleration.tensorrt.models");
      EvExists unet true; EvExists dec true; EvExists enc true;
      EvCall NewCudaStream;
      EvCall (NewUNetEngine unet);
      EvCall (NewKLEngine enc dec);
      EvCall GcCollect; EvCall CudaEmptyCache;
      EvPrint "TensorRT acceleration enabled."].
Proof.
unfold unet, enc, dec. unfold_run. repeat exec1.
all: intros H; inversion H; subst; clear H.
all: intros F; try reflexivity.
all: exfalso;
  match goal with
  | F : forall p found, In (EvExists p found) ?l -> found = true |- _ =>
      match l with
      | context [EvExists ?p false] =>
          assert (Q : false = true) by (apply (F p); cbn; auto 30);
          discriminate Q
      end
  end.
Qed.

(** X11: the stream a failed setup leaves for the fallback is fixed by
  the call that raised.  For xformers and TensorRT, with no [forward]
  attribute on the VAE beforehand: a failure while the decoder is
  exported leaves [forward] installed on the VAE; a failure of the
  [AutoencoderKLEngine] constructor leaves the TensorRT UNet with the
  old VAE; a failure while memory is freed leaves both engines in
  place; any other failure leaves the stream as it was. *)
Theorem state_after_failed_acceleration h s ev s' x :
acceleration <> "sfast" ->
vae_forward (s_vae s) = false ->
body h s = (ev, s', inl x) ->
s' = stream_after_failure unet enc dec (last_call ev) s.
Proof.
unfold body, unet, enc, dec, enable_acceleration. intros Ns.
destruct s as [sp stl sd sw sh sdr sf su [vm vf vc vd]]. cbn. intros ->.
destruct (String.eqb_spec acceleration "sfast") as [As | _]; [contradiction |].
destruct (String.eqb_spec acceleration "xformers") as [-> | Hx]; unfold_run.
- exec1; intros H; inversion H; subst; reflexivity.
- destruct (String.eqb_spec acceleration "tensorrt") as [-> | Ht]; unfold_run.
  + repeat exec1.
    all: intros H; inversion H; subst; clear H; reflexivity.
  + discriminate.
Qed.

End TensorRTStates.

(** ** The constructor, beyond loading *)

Section Constructor.

Variable E : env.

(** X4: a failure in the first three steps of [_load_model] (loading
  the pipeline, building the stream, the LCM-LoRA, the tiny VAE) is
  outside the [try] statement: the constructor raises that very
  exception, instance of [Exception] or not, and makes no further
  call. *)
Theorem constructor_surfaces_loading_failure (a : init_args) h e0 x :
entering_try E (init_self a) (a_model_id a) (a_t_index_list a)
  (a_lcm_lora_id a) (a_vae_id a) (a_is_drawing a)
  (a_use_lcm_lora a) (a_use_tiny_vae a) h tt = (e0, tt, inl x) ->
__init__ E a h tt = (e0, tt, inl x).
Proof.
intros H.
apply (load_model_fails_before_try E (init_self a) (a_model_id a)
         (a_acceleration a) (a_t_index_list a) (a_lcm_lora_id a) (a_vae_id a)
         (a_warmup a)) in H.
unfold init_self in H. unfold __init__, bind. rewrite H. reflexivity.
Qed.

(** X12: a constructor that completes has loaded the model, then
  wrapped the UNet in [DataParallel] exactly when [device_ids] was
  given, then enabled the similar-image filter with the given
  threshold exactly when asked to, in this order and with no other
  call; [self.stream] is the stream [_load_model] returned, with the
  wrapped UNet if any. *)
Theorem constructor_after_loading (a : init_args) h ev w :
__init__ E a h tt = (ev, tt, inr w) ->
exists e1 stream,
  _load_model E (init_self a) (a_model_id a) (a_t_index_list a)
    (a_lcm_lora_id a) (a_vae_id a) (a_acceleration a) (a_warmup a)
    (a_is_drawing a) (a_use_lcm_lora a) (a_use_tiny_vae a) h tt
  = (e1, tt, inr stream) /\
  self_attrs w = init_self a /\
  self_stream w
  = match a_device_ids a with
    | Some ids => set_unet (DataParallel (s_unet stream) ids) stream
    | None => stream
    end /\
  ev = e1
       ++ match a_device_ids a with
          | Some ids => [EvCall (NewDataParallel (s_unet stream) ids)]
          | None => []
          end
       ++ (if a_enable_similar_image_filter a
           then [EvCall (EnableSimilarImageFilter
                           (a_similar_image_filter_threshold a))]
           else []).
Proof.
unfold __init__. intros H.
apply bind_inr in H. destruct H as (e1 & [] & stream & e2 & H1 & H & ->).
exists e1, stream. split; [exact H1 |].
apply with_local_inv in H. destruct H as (w' & H & _).
revert H. unfold bind, when, invoke, modify, get, ret.
destruct (a_device_ids a) as [ids |], (a_enable_similar_image_filter a); cbn;
  repeat exec1; intros H; inversion H; subst; auto.
Qed.

End Constructor.

(** ** More on the methods *)

Section MoreMethods.

Variable E : env.

(** X13: [postprocess_image], when moving to the CPU and decoding do
  not raise: with a frame buffer above one it returns every decoded
  image, an empty list included; otherwise it returns the first
  decoded image, and raises [IndexError] when nothing was decoded. *)
Theorem postprocess_image_result (t : tensor) h (w : wrapper) :
let decoded := [EvCall (TensorCpu t); EvCall (PostprocessImage (OnCpu t) "pil")] in
let n := num_images E (h ++ decoded) (OnCpu t) in
raises E h (TensorCpu t) = None ->
raises E (h ++ [EvCall (TensorCpu t)]) (PostprocessImage (OnCpu t) "pil") = None ->
postprocess_image E t h w
= (decoded, w,
   if 1 <? frame_buffer_size (self_attrs w)
   then inr (ImageList (map (Postprocessed (OnCpu t)) (seq 0 n)))
   else match n with
        | O => inl IndexError
        | S _ => inr (OneImage (Postprocessed (OnCpu t) 0))
        end).
Proof.
cbv zeta. intros R1 R2.
unfold postprocess_image, bind, get, invoke, ask, ret, raise. cbn.
destruct (1 <? frame_buffer_size (self_attrs w));
  repeat first [rewrite app_nil_r | rewrite R1 | rewrite R2
               | rewrite <- app_assoc | progress cbn].
- reflexivity.
- destruct (num_images E _ (OnCpu t)); reflexivity.
Qed.

(** X14: with a frame buffer of at most one (zero and negative sizes
  included) [txt2img] opens with [stream.txt2img()] and never asks
  for a batch, so [batch_size] plays no part. *)
Theorem txt2img_single_frame h (w : wrapper) :
frame_buffer_size (self_attrs w) <= 1 ->
exists rest,
  events (txt2img E h w) = EvCall StreamTxt2Img :: rest /\
  forall n, ~ In (EvCall (StreamTxt2ImgBatch n)) rest.
Proof.
intros Hf. apply Z.ltb_ge in Hf.
unfold txt2img, postprocess_image, events, bind, get, invoke, ask, ret, raise. cbn.
repeat (first [rewrite Hf | exec2]; cbn); eexists;
  (split; [reflexivity | intros m Hin; cbn in Hin; in_cases]).
Qed.

(** X15: in any mode other than "img2img" (a misspelt mode included)
  [__call__] does not look at its argument: it runs [txt2img], and
  every call it makes is to the stream's text-to-image entry points
  or to the decoding of their result. *)
Theorem call_ignores_image_outside_img2img (image image' : image_arg) h (w : wrapper) :
mode (self_attrs w) <> "img2img" ->
__call__ E image h w = __call__ E image' h w /\
Forall (fun e => match e with
                 | EvCall StreamTxt2Img
                 | EvCall (StreamTxt2ImgBatch _)
                 | EvCall (TensorCpu _)
                 | EvCall (PostprocessImage _ _) => True
                 | _ => False
                 end)
       (events (__call__ E image h w)).
Proof.
intros Hm. apply String.eqb_neq in Hm. split.
- unfold __call__, bind, get. cbn. rewrite Hm. reflexivity.
- revert h w Hm.
  assert (G : forall w, (mode (self_attrs w) =? "img2img")%string = false ->
            forall h, Forall (fun e => match e with
                               | EvCall StreamTxt2Img
                               | EvCall (StreamTxt2ImgBatch _)
                               | EvCall (TensorCpu _)
                               | EvCall (PostprocessImage _ _) => True
                               | _ => False
                               end) (events (__call__ E image h w))).
  { intros w Hm h.
    unfold __call__, txt2img, postprocess_image, events,
      bind, get, invoke, ask, ret, raise. cbn. rewrite Hm.
    destruct (1 <? frame_buffer_size (self_attrs w)) eqn:Hf; cbn;
      repeat (first [rewrite Hf | exec2]; cbn); repeat constructor. }
  intros h w Hm. apply G. exact Hm.
Qed.

(** X16: in mode "img2img", [__call__] with no image (the default
  [None]) hands [None] to the stream as its first call: the wrapper
  itself neither checks for a missing image nor raises. *)
Theorem call_without_image h (w : wrapper) :
mode (self_attrs w) = "img2img" ->
exists rest, events (__call__ E ArgNone h w) = EvCall (StreamCall ArgNone) :: rest.
Proof.
intros Hm.
unfold __call__, img2img, postprocess_image, events,
  bind, get, invoke, ask, ret, raise. cbn. rewrite Hm. cbn.
destruct (1 <? frame_buffer_size (self_attrs w)) eqn:Hf; cbn;
  repeat (first [rewrite Hf | exec2]; cbn); eexists; reflexivity.
Qed.

(** X17: whatever [preprocess_image] returns has been run through the
  image processor with [(height, width)] and moved to [self.device]
  and [self.dtype]; a PIL image is converted and resized once, a path
  is opened and then converted and resized twice, and anything else
  (a tensor, [None]) reaches the image processor as it was given. *)
Theorem preprocess_image_result (image : image_arg) h (w : wrapper) (t : tensor) :
outcome (preprocess_image E image h w) = inr t ->
let W := width (self_attrs w) in
let H := height (self_attrs w) in
let once := fun im => Resized W H (Converted "RGB" im) in
let given :=
  match image with
  | ArgPath path => ArgImage (once (once (Opened path)))
  | ArgImage im => ArgImage (once im)
  | _ => image
  end in
t = MovedTo (device (self_attrs w)) (dtype (self_attrs w)) (Preprocessed given H W) /\
last (events (preprocess_image E image h w)) (EvPrint "")
= EvCall (TensorTo (device (self_attrs w)) (dtype (self_attrs w))
            (Preprocessed given H W)).
Proof.
cbv zeta.
unfold preprocess_image, events, outcome, bind, get, invoke, ret.
destruct image; cbn; repeat exec2; intros Q; inversion Q; subst;
  split; reflexivity.
Qed.

(** X18: no sequence of methods changes the wrapper (its mode, sizes,
  device, dtype, or which stream it holds), and no method goes back to
  construction: nothing is loaded, fused, compiled or accelerated
  again, and the stream is never re-prepared with the seeded
  generator. *)
Theorem methods_leave_wrapper_alone (ms : list method) h (w : wrapper) :
snd (run_methods E ms h w) = w /\
Forall (fun e => step_of e = Inference) (fst (run_methods E ms h w)).
Proof.
split; [apply run_methods_keeps_self |].
revert h. induction ms as [| m ms IH]; intros h; [constructor |].
cbn [run_methods].
pose proof (run_method_keeps_self E m h w) as K.
assert (F : Forall (fun e => step_of e = Inference) (fst (run_method E m h w))).
{ destruct m; cbn [run_method fst];
    unfold prepare, __call__, txt2img, img2img, preprocess_image,
      postprocess_image, events, bind, get, invoke, ask, ret, raise; cbn.
  - repeat exec2; repeat constructor.
  - destruct (String.eqb (mode (self_attrs w)) "img2img"); cbn;
      destruct (1 <? frame_buffer_size (self_attrs w)) eqn:Hf; cbn;
      try destruct image; cbn;
      repeat (first [rewrite Hf | exec2]; cbn); repeat constructor.
  - destruct (1 <? frame_buffer_size (self_attrs w)) eqn:Hf; cbn;
      repeat (first [rewrite Hf | exec2]; cbn); repeat constructor.
  - destruct (1 <? frame_buffer_size (self_attrs w)) eqn:Hf; cbn;
      destruct image; cbn;
      repeat (first [rewrite Hf | exec2]; cbn); repeat constructor.
  - destruct image; cbn; repeat exec2; repeat constructor.
  - destruct (1 <? frame_buffer_size (self_attrs w)) eqn:Hf; cbn;
      repeat (first [rewrite Hf | exec2]; cbn); repeat constructor. }
destruct (run_method E m h w) as [e1 w1]. cbn [fst snd] in *. subst w1.
specialize (IH (h ++ e1)).
destruct (run_methods E ms (h ++ e1) w) as [e2 w2]. cbn [fst] in *.
apply Forall_app. split; assumption.
Qed.

End MoreMethods.
(** ** Further concrete runs *)

(** A relative model id, a checkpoint given by its full path, and a
    checkpoint in a sibling directory. *)
Lemma engine_paths_location_witness :
  (exists q,
     unet_path (sample_self "img2img" 1) "KBlueLeaf/kohaku-v2.1" true true
     = ("engines/" ++ "KBlueLeaf/kohaku-v2.1" ++ q)%string) /\
  (exists q,
     unet_path (sample_self "img2img" 1) "/models/sd15.safetensors" true true
     = ("/models/sd15.safetensors" ++ q)%string) /\
  (exists q,
     unet_path (sample_self "img2img" 1) "../models/sd15.safetensors" true true
     = ("engines/../" ++ "models/sd15.safetensors" ++ q)%string).
Proof.
  split; [| split].
  - apply (engine_paths_location (sample_self "img2img" 1)
             "KBlueLeaf/kohaku-v2.1" true true); [left |]; reflexivity.
  - apply (engine_paths_location (sample_self "img2img" 1)
             "/models/sd15.safetensors" true true); [left |]; reflexivity.
  - apply (engine_paths_location (sample_self "img2img" 1)
             "../models/sd15.safetensors" true true); [left |]; reflexivity.
Defined.

(** A frame buffer of one against a frame buffer of two; and 512 by 512
    in half precision against 1024 by 768 in single precision. *)
Lemma engine_paths_identify_configuration_witness :
  unet_path (sample_self "img2img" 1) "KBlueLeaf/kohaku-v2.1" true true
  <> unet_path (sample_self "img2img" 2) "KBlueLeaf/kohaku-v2.1" true true /\
  unet_path (sample_self "img2img" 1) "KBlueLeaf/kohaku-v2.1" true true
  = unet_path wide_self "KBlueLeaf/kohaku-v2.1" true true.
Proof.
  split.
  - apply (engine_paths_identify_configuration (sample_self "img2img" 1)
             (sample_self "img2img" 2) "KBlueLeaf/kohaku-v2.1" true true true true).
    left. vm_compute. discriminate.
  - apply (engine_paths_identify_configuration (sample_self "img2img" 1)
             wide_self "KBlueLeaf/kohaku-v2.1" true true true true); reflexivity.
Defined.

(** Mode "txt2img": one directory for the three engines. *)
Lemma engine_directories_shared_witness :
  Py.dirname (unet_path (sample_self "txt2img" 2) "KBlueLeaf/kohaku-v2.1" true true)
  = Py.dirname (vae_decoder_path (sample_self "txt2img" 2) "KBlueLeaf/kohaku-v2.1"
                  true true).
Proof.
  apply (engine_directories_shared (sample_self "txt2img" 2)
           "KBlueLeaf/kohaku-v2.1" true true).
  reflexivity.
Defined.

(** [from_pretrained] raising [RuntimeError]: the constructor raises it. *)
Lemma constructor_surfaces_loading_failure_witness :
  outcome (__init__ (sample_env is_from_pretrained RuntimeError true 1)
             (sample_args "img2img" "tensorrt" 1) [] tt)
  = inl RuntimeError.
Proof.
  erewrite constructor_surfaces_loading_failure; [reflexivity |].
  vm_compute. reflexivity.
Defined.

(** [stream.prepare] raising [RuntimeError] after a clean TensorRT setup. *)
Lemma after_the_try_statement_witness :
  outcome (_load_model (sample_env is_stream_prepare RuntimeError true 1)
             (sample_self "img2img" 1) "KBlueLeaf/kohaku-v2.1"
             [0; 16; 32; 45] None None "tensorrt" 10 true true true [] tt)
  = inl RuntimeError.
Proof.
  eassert (H0 : entering_try (sample_env is_stream_prepare RuntimeError true 1)
                  (sample_self "img2img" 1) "KBlueLeaf/kohaku-v2.1"
                  [0; 16; 32; 45] None None true true true [] tt = (_, tt, inr _))
    by (vm_compute; reflexivity).
  destruct (after_the_try_statement _ _ _ "tensorrt" _ _ _ 10 _ _ _ _ _ _ H0)
    as [B _].
  erewrite B; [| vm_compute; reflexivity].
  vm_compute. reflexivity.
Defined.

(** A model id from the hub with nothing raising; and a checkpoint file
    whose [.to] raises. *)
Lemma loading_calls_as_configured_witness :
  (exists rest,
     events (_load_model (sample_env no_call RuntimeError true 1)
               (sample_self "img2img" 1) "KBlueLeaf/kohaku-v2.1" [0; 16; 32; 45]
               None None "none" 10 true true true [] tt)
     = EvCall (FromPretrained "KBlueLeaf/kohaku-v2.1")
       :: EvCall (PipeTo "cuda" "float16")
       :: EvCall (NewStreamDiffusion sample_pipe [0; 16; 32; 45] "float16" 512 512
                    true 1)
       :: rest) /\
  (exists rest,
     events (_load_model (sample_env is_pipe_to RuntimeError true 1)
               (sample_self "img2img" 1) "/models/sd15.safetensors" [0; 16; 32; 45]
               None None "none" 10 true true true [] tt)
     = EvCall (FromSingleFile "/models/sd15.safetensors")
       :: EvCall (PipeTo "cuda" "float16") :: rest).
Proof.
  split.
  - destruct (loading_calls_as_configured (sample_env no_call RuntimeError true 1)
                (sample_self "img2img" 1) "KBlueLeaf/kohaku-v2.1" "none"
                [0; 16; 32; 45] None None 10 true true true [])
      as (_ & _ & _ & H & _).
    exact (H eq_refl eq_refl).
  - destruct (loading_calls_as_configured (sample_env is_pipe_to RuntimeError true 1)
                (sample_self "img2img" 1) "/models/sd15.safetensors" "none"
                [0; 16; 32; 45] None None 10 true true true [])
      as (_ & _ & H & _).
    exact (H eq_refl).
Defined.

(** The default tiny VAE on the pipeline's UNet. *)
Lemma stream_entering_try_witness :
  exists e0 s1,
    entering_try (sample_env no_call RuntimeError true 1) (sample_self "img2img" 1)
      "KBlueLeaf/kohaku-v2.1" [0; 16; 32; 45] None None true true true [] tt
    = (e0, tt, inr s1) /\
    vae_module (s_vae s1) = TinyVAE "madebyollin/taesd" sample_pipe /\
    s_unet s1 = TorchUNet sample_pipe.
Proof.
  eassert (H0 : entering_try (sample_env no_call RuntimeError true 1)
                  (sample_self "img2img" 1) "KBlueLeaf/kohaku-v2.1"
                  [0; 16; 32; 45] None None true true true [] tt = (_, tt, inr _))
    by (vm_compute; reflexivity).
  pose proof (stream_entering_try _ _ _ _ _ _ _ _ _ _ _ _ H0) as S.
  do 2 eexists. split; [exact H0 |]. rewrite S. split; reflexivity.
Defined.

(** An unknown acceleration name does nothing. *)
Lemma acceleration_branch_by_name_witness :
  enable_acceleration (sample_env no_call RuntimeError true 1)
    (sample_self "img2img" 1) "KBlueLeaf/kohaku-v2.1" "TensorRT" true true []
    (sample_stream "img2img" 1)
  = ([], sample_stream "img2img" 1, inr tt).
Proof.
  apply (acceleration_branch_by_name (sample_env no_call RuntimeError true 1)
           (sample_self "img2img" 1) "KBlueLeaf/kohaku-v2.1" "TensorRT" true true []
           (sample_stream "img2img" 1)); discriminate.
Defined.

(** A clean TensorRT setup with nothing cached. *)
Lemma tensorrt_success_state_witness :
  let self := sample_self "img2img" 1 in
  s_unet (state (enable_tensorrt (sample_env no_call RuntimeError false 1) self
                   "KBlueLeaf/kohaku-v2.1" true true [] (sample_stream "img2img" 1)))
  = UNetEngine (unet_path self "KBlueLeaf/kohaku-v2.1" true true).
Proof.
  cbv zeta.
  eassert (H : enable_tensorrt (sample_env no_call RuntimeError false 1)
                 (sample_self "img2img" 1) "KBlueLeaf/kohaku-v2.1" true true []
                 (sample_stream "img2img" 1) = (_, _, inr tt))
    by (vm_compute; reflexivity).
  destruct (tensorrt_success_state _ _ _ _ _ _ (sample_stream "img2img" 1) _ _
              eq_refl H) as (S & _).
  rewrite H. unfold state. cbn [fst snd]. rewrite S. reflexivity.
Defined.

(** A clean TensorRT setup with everything cached: twelve events. *)
Lemma tensorrt_warm_start_witness :
  length (events (enable_tensorrt (sample_env no_call RuntimeError true 1)
                    (sample_self "img2img" 1) "KBlueLeaf/kohaku-v2.1" true true []
                    (sample_stream "img2img" 1)))
  = 12%nat.
Proof.
  eassert (H : enable_tensorrt (sample_env no_call RuntimeError true 1)
                 (sample_self "img2img" 1) "KBlueLeaf/kohaku-v2.1" true true []
                 (sample_stream "img2img" 1) = (_, _, inr tt))
    by (vm_compute; reflexivity).
  rewrite H. unfold events. cbn [fst].
  erewrite (tensorrt_warm_start _ _ _ _ _ _ _ _ _ H); [reflexivity |].
  intros p found Hin. vm_compute in Hin.
  repeat (destruct Hin as [Hin | Hin];
          [first [discriminate Hin | now inversion Hin] |]).
  destruct Hin.
Defined.

(** The [AutoencoderKLEngine] constructor failing on cached engines. *)
Lemma state_after_failed_acceleration_witness :
  let self := sample_self "img2img" 1 in
  let s := sample_stream "img2img" 1 in
  state (enable_acceleration (sample_env is_new_kl_engine RuntimeError true 1) self
           "KBlueLeaf/kohaku-v2.1" "tensorrt" true true [] s)
  = set_unet (UNetEngine (unet_path self "KBlueLeaf/kohaku-v2.1" true true)) s.
Proof.
  cbv zeta.
  eassert (H : enable_acceleration (sample_env is_new_kl_engine RuntimeError true 1)
                 (sample_self "img2img" 1) "KBlueLeaf/kohaku-v2.1" "tensorrt"
                 true true [] (sample_stream "img2img" 1) = (_, _, inl _))
    by (vm_compute; reflexivity).
  pose proof (state_after_failed_acceleration _ _ _ "tensorrt" _ _ _
                (sample_stream "img2img" 1) _ _ _
                ltac:(discriminate) eq_refl H) as S.
  rewrite H. unfold state. cbn [fst snd]. rewrite S. vm_compute. reflexivity.
Defined.

(** A construction with neither [device_ids] nor the filter. *)
Lemma constructor_after_loading_witness :
  exists w,
    outcome (__init__ (sample_env no_call RuntimeError true 1)
               (sample_args "img2img" "none" 1) [] tt) = inr w /\
    self_attrs w = init_self (sample_args "img2img" "none" 1).
Proof.
  eassert (H : __init__ (sample_env no_call RuntimeError true 1)
                 (sample_args "img2img" "none" 1) [] tt = (_, tt, inr _))
    by (vm_compute; reflexivity).
  destruct (constructor_after_loading _ _ _ _ _ H) as (e1 & stream & _ & A & _).
  eexists. split; [rewrite H; reflexivity | exact A].
Defined.

(** Nothing decoded with a frame buffer of one: [IndexError]. *)
Lemma postprocess_image_result_witness :
  outcome (postprocess_image (sample_env no_call RuntimeError true 0) Txt2ImgOut []
             (sample_wrapper "txt2img" 1))
  = inl IndexError.
Proof.
  rewrite (postprocess_image_result (sample_env no_call RuntimeError true 0)
             Txt2ImgOut [] (sample_wrapper "txt2img" 1) eq_refl eq_refl).
  reflexivity.
Defined.

(** A frame buffer of zero. *)
Lemma txt2img_single_frame_witness :
  exists rest,
    events (txt2img (sample_env no_call RuntimeError true 1) []
              (sample_wrapper "txt2img" 0))
    = EvCall StreamTxt2Img :: rest.
Proof.
  destruct (txt2img_single_frame (sample_env no_call RuntimeError true 1) []
              (sample_wrapper "txt2img" 0)) as (rest & H & _).
  - vm_compute. discriminate.
  - exists rest. exact H.
Defined.

(** Mode "txt2img": a path and no image give the same run. *)
Lemma call_ignores_image_outside_img2img_witness :
  __call__ (sample_env no_call RuntimeError true 1) (ArgPath "input.png") []
    (sample_wrapper "txt2img" 1)
  = __call__ (sample_env no_call RuntimeError true 1) ArgNone []
      (sample_wrapper "txt2img" 1).
Proof.
  apply (call_ignores_image_outside_img2img (sample_env no_call RuntimeError true 1)
           (ArgPath "input.png") ArgNone [] (sample_wrapper "txt2img" 1)).
  discriminate.
Defined.

(** Mode "img2img" and no image. *)
Lemma call_without_image_witness :
  exists rest,
    events (__call__ (sample_env no_call RuntimeError true 1) ArgNone []
              (sample_wrapper "img2img" 1))
    = EvCall (StreamCall ArgNone) :: rest.
Proof.
  apply (call_without_image (sample_env no_call RuntimeError true 1) []
           (sample_wrapper "img2img" 1)).
  reflexivity.
Defined.

(** A path: opened, then converted and resized twice. *)
Lemma preprocess_image_result_witness :
  outcome (preprocess_image (sample_env no_call RuntimeError true 1)
             (ArgPath "input.png") [] (sample_wrapper "img2img" 1))
  = inr (MovedTo "cuda" "float16"
           (Preprocessed
              (ArgImage
                 (Resized 512 512
                    (Converted "RGB"
                       (Resized 512 512 (Converted "RGB" (Opened "input.png"))))))
              512 512)).
Proof.
  eassert (H : outcome (preprocess_image (sample_env no_call RuntimeError true 1)
                          (ArgPath "input.png") [] (sample_wrapper "img2img" 1))
               = inr _) by (vm_compute; reflexivity).
  destruct (preprocess_image_result _ _ _ _ _ H) as [T _].
  rewrite H, T. reflexivity.
Defined.

(** A [KeyboardInterrupt] while the UNet engine is compiled. *)
Lemma non_exception_escapes_the_try_witness :
  outcome (_load_model (sample_env is_compile_unet KeyboardInterrupt false 1)
             (sample_self "img2img" 1) "KBlueLeaf/kohaku-v2.1" [0; 16; 32; 45]
             None None "tensorrt" 10 true true true [] tt)
  = inl KeyboardInterrupt.
Proof.
  eassert (H0 : entering_try (sample_env is_compile_unet KeyboardInterrupt false 1)
                  (sample_self "img2img" 1) "KBlueLeaf/kohaku-v2.1" [0; 16; 32; 45]
                  None None true true true [] tt = (_, tt, inr _))
    by (vm_compute; reflexivity).
  eassert (H1 : enable_acceleration
                  (sample_env is_compile_unet KeyboardInterrupt false 1)
                  (sample_self "img2img" 1) "KBlueLeaf/kohaku-v2.1" "tensorrt"
                  true true ([] ++ _) _ = (_, _, inl KeyboardInterrupt))
    by (vm_compute; reflexivity).
  rewrite (non_exception_escapes_the_try _ _ _ _ _ _ _ 10 _ _ _ _ _ _ _ _ _
             H0 H1 eq_refl).
  reflexivity.
Defined.
